(** * google-classroom-tui: the data-access layer

    A shallow embedding of the three packages that make up the
    data-access layer of the terminal client:

    - [cache]  (internal/cache/cache.go): the file-based response cache;
    - [auth]   (internal/auth/oauth.go): the token store and refresh;
    - [api]    (internal/api/client.go): the Classroom client with its
      pagination and retry loops.

    Definitions come first, package by package, each one following the Go
    function of the same name.  The theorems follow, grouped by package. *)

From Stdlib Require Import ZArith String Ascii List Bool Lia DecimalString.
From stdpp Require Import base gmap strings list fin_maps.
Import ListNotations.

Local Open Scope string_scope.
Local Open Scope Z_scope.

(** ** The parts of the Go runtime and standard library the code uses *)

(** [time]: an instant is the number of nanoseconds elapsed since the zero
    [Time]; a [Duration] is a number of nanoseconds. *)
Module time.
Abbreviation Time := Z (only parsing).
Abbreviation Duration := Z (only parsing).

Definition Second : Duration := 1000000000.
Definition Minute : Duration := 60 * Second.
Definition Hour : Duration := 60 * Minute.

(** [t.After(u)], [t.Before(u)], [t.Add(d)], [t.IsZero()]. *)
Definition After (t u : Time) : bool := u <? t.
Definition Before (t u : Time) : bool := t <? u.
Definition Add (t : Time) (d : Duration) : Time := t + d.
Definition IsZero (t : Time) : bool := t =? 0.
End time.

(** Go's [error] values, as far as the three packages tell them apart:
    - [errorString]: a plain error carrying its text ([errors.New],
      [fmt.Errorf] without [%w], [context.Canceled], errors of [os] and of
      the network transport);
    - [googleapiError]: the [*googleapi.Error] a remote call returns for a
      non-2xx answer, with the HTTP status and the server's message;
    - [wrapError]: [fmt.Errorf(prefix + "%w", cause)]. *)
Inductive error : Type :=
| errorString (text : string)
| googleapiError (code : Z) (message : string)
| wrapError (prefix : string) (cause : error).

(** [strconv.Itoa]. *)
Definition Itoa (n : Z) : string := NilZero.string_of_int (Z.to_int n).

(** [err.Error()]. *)
Fixpoint Error (err : error) : string :=
  match err with
  | errorString text => text
  | googleapiError code message =>
      "googleapi: Error " +:+ Itoa code +:+ ": " +:+ message
  | wrapError prefix cause => prefix +:+ Error cause
  end.

(** A Go result pair [(value, error)] in which exactly one side is set. *)
Inductive Result (T : Type) : Type :=
| Ok (value : T)
| Err (err : error).
Arguments Ok {T} value.
Arguments Err {T} err.

(** [strings]: the three functions the packages call. *)
Module gostrings.
(** [strings.HasPrefix(s, prefix)]. *)
Fixpoint HasPrefix (s prefix : string) : bool :=
  match prefix with
  | EmptyString => true
  | String p prefix' =>
      match s with
      | EmptyString => false
      | String c s' => Ascii.eqb c p && HasPrefix s' prefix'
      end
  end.

(** [strings.Contains(s, substr)]. *)
Fixpoint Contains (s substr : string) : bool :=
  HasPrefix s substr ||
  match s with
  | EmptyString => false
  | String _ s' => Contains s' substr
  end.

(** [strings.ReplaceAll(s, old, new)] for a pattern [old] of one
    character, the only form the cache uses. *)
Fixpoint ReplaceAll (s : string) (old : ascii) (new : string) : string :=
  match s with
  | EmptyString => EmptyString
  | String c s' =>
      (if Ascii.eqb c old then new else String c EmptyString)
        +:+ ReplaceAll s' old new
  end.

(** [strings.Join(elems, sep)]. *)
Fixpoint Join (elems : list string) (sep : string) : string :=
  match elems with
  | [] => ""
  | [e] => e
  | e :: rest => e +:+ sep +:+ Join rest sep
  end.
End gostrings.

(** [encoding/json], for one Go type [A]: what [json.MarshalIndent] writes
    and what [json.Unmarshal] reads back, a value or a syntax error.
    [Bytes] is the type of file contents and [size] their length in bytes.
    A marshalled value does not always parse back to itself: a
    [json.RawMessage] inside it comes back re-indented.  [readBack] is
    what a value comes back as, and the only law the packages rely on is
    that whatever [MarshalIndent] writes parses back to that. *)
Module json.
(** [json.RawMessage]: a JSON document kept unparsed. *)
Abbreviation RawMessage := string (only parsing).

Class Codec (A : Type) (readBack : A -> A) : Type := {
  Bytes : Type;
  size : Bytes -> Z;
  MarshalIndent : A -> Result Bytes;
  Unmarshal : Bytes -> Result A;
  Unmarshal_MarshalIndent :
    forall a b, MarshalIndent a = Ok b -> Unmarshal b = Ok (readBack a)
}.

(** [json.Marshal(value)] for the [interface{}] payloads handed to the
    cache; it fails on values JSON cannot express. *)
Class Marshaler (V : Type) : Type := {
  Marshal : V -> Result RawMessage
}.

(** The line break [json.Indent] begins each line with: a newline and two
    spaces per level. *)
Fixpoint newline (depth : nat) : string :=
  match depth with
  | O => String "010" ""
  | S depth' => newline depth' +:+ "  "
  end.

Definition isSpace (c : ascii) : bool :=
  Ascii.eqb c " " || Ascii.eqb c "009" || Ascii.eqb c "010"
  || Ascii.eqb c "013".

(** The loop of [json.Indent] with an empty prefix and an indent of two
    spaces, as [MarshalIndent(v, "", "  ")] runs it over a document: bytes
    inside a string literal are copied; outside, white space is dropped,
    an opening bracket defers a line break to the next byte that is not
    its closing bracket, a comma is followed by a line break, a colon by
    a space, and a closing bracket is preceded by a line break unless its
    container is empty. *)
Fixpoint indentLoop (src : string) (inString escaped needIndent : bool)
         (depth : nat) : string :=
  match src with
  | EmptyString => EmptyString
  | String c src' =>
      if inString
      then String c
             (if escaped then indentLoop src' true false needIndent depth
              else if Ascii.eqb c "092"
                   then indentLoop src' true true needIndent depth
                   else if Ascii.eqb c "034"
                        then indentLoop src' false false needIndent depth
                        else indentLoop src' true false needIndent depth)
      else if isSpace c
           then indentLoop src' false false needIndent depth
           else
             let closing := Ascii.eqb c "}" || Ascii.eqb c "]" in
             let begun := needIndent && negb closing in
             let depth := if begun then S depth else depth in
             (if begun then newline depth else "")
             +:+ (if Ascii.eqb c "{" || Ascii.eqb c "["
                  then String c (indentLoop src' false false true depth)
                  else if Ascii.eqb c ","
                       then String c
                              (newline depth
                               +:+ indentLoop src' false false false depth)
                       else if Ascii.eqb c ":"
                            then String c
                                   (String " "
                                      (indentLoop src' false false false
                                                  depth))
                            else if closing
                                 then if needIndent
                                      then String c
                                             (indentLoop src' false false
                                                         false depth)
                                      else newline (Nat.pred depth)
                                           +:+ String c
                                                 (indentLoop src' false false
                                                    false (Nat.pred depth))
                                 else String c
                                        (indentLoop src' (Ascii.eqb c "034")
                                                    false false depth))
  end.

(** What [MarshalIndent(v, "", "  ")] makes of a [json.RawMessage] that
    sits [depth] levels inside [v], and so what [json.Unmarshal] hands
    back for it. *)
Definition Indent (depth : nat) (raw : RawMessage) : RawMessage :=
  indentLoop raw false false false depth.

(** A reference codec: file contents are kept as what [json.Unmarshal]
    makes of them, the value or the syntax error. *)
Definition parsedCodec (A : Type) (readBack : A -> A) : Codec A readBack :=
  {| Bytes := Result A;
     size := fun _ => 1;
     MarshalIndent := fun a => Ok (Ok (readBack a));
     Unmarshal := fun b => b;
     Unmarshal_MarshalIndent :=
       fun a b (H : Ok (Ok (readBack a)) = Ok b) =>
         match H in _ = r
               return match r with
                      | Ok b' => b' = Ok (readBack a)
                      | Err _ => True
                      end
         with eq_refl => eq_refl end |}.

(** A [json.RawMessage] that is a compact document, with the characters
    [json.Marshal] escapes already escaped, marshals to itself. *)
Definition rawMarshaler : Marshaler RawMessage :=
  {| Marshal := fun raw => Ok raw |}.
End json.

(** [os]: one directory entry, or the file at one path.
    - [Regular data]: a regular file the process can read and write;
    - [Unreadable err]: an entry [os.ReadFile] and [os.WriteFile] fail on
      with [err] (permissions), [err] not being [os.ErrNotExist];
    - [SubDir err]: a directory; reading or writing it as a file fails
      with [err].
    An absent entry is an absent key of the enclosing map. *)
Module os.
Inductive Node (Bytes : Type) : Type :=
| Regular (data : Bytes)
| Unreadable (err : error)
| SubDir (err : error).
Arguments Regular {Bytes} data.
Arguments Unreadable {Bytes} err.
Arguments SubDir {Bytes} err.

Definition IsDir {Bytes} (n : Node Bytes) : bool :=
  match n with SubDir _ => true | _ => false end.

(** What the operating system answers whatever the directory holds:
    - [MkdirAll dir]: the error of [os.MkdirAll(dir, perm)], if the
      directory is not there and cannot be made;
    - [nameError name]: the error with which a file name is refused before
      the directory is looked at (a name longer than the file system
      allows, a NUL byte in it); it is never [os.ErrNotExist]. *)
Class Env : Type := {
  MkdirAll : string -> option error;
  nameError : string -> option error
}.

(** The outcome of [os.ReadFile] and of [os.Remove], with the errors for
    which [os.IsNotExist] holds set apart from the others. *)
Inductive Outcome (T : Type) : Type :=
| Done (value : T)
| NotExist
| Failed (err : error).
Arguments Done {T} value.
Arguments NotExist {T}.
Arguments Failed {T} err.

Section Files.
Context {env : Env} {Bytes : Type}.

(** [os.ReadFile(name)] in the directory [d]. *)
Definition ReadFile (d : gmap string (Node Bytes)) (name : string)
  : Outcome Bytes :=
  match nameError name with
  | Some err => Failed err
  | None =>
      match d !! name with
      | None => NotExist
      | Some (Regular data) => Done data
      | Some (Unreadable err) | Some (SubDir err) => Failed err
      end
  end.

(** [os.WriteFile(name, data, perm)] in the directory [d].  The failures
    are those of opening the file; a write that was begun is taken to be
    completed. *)
Definition WriteFile (d : gmap string (Node Bytes)) (name : string)
           (data : Bytes) : gmap string (Node Bytes) * option error :=
  match nameError name with
  | Some err => (d, Some err)
  | None =>
      match d !! name with
      | Some (Unreadable err) | Some (SubDir err) => (d, Some err)
      | _ => (<[name := Regular data]> d, None)
      end
  end.

(** [os.Remove(name)] in the directory [d].  An entry that is there is
    taken to be removable. *)
Definition Remove (d : gmap string (Node Bytes)) (name : string)
  : gmap string (Node Bytes) * Outcome unit :=
  match nameError name with
  | Some err => (d, Failed err)
  | None =>
      match d !! name with
      | None => (d, NotExist)
      | Some _ => (delete name d, Done tt)
      end
  end.
End Files.

(** The longest file name Linux file systems accept, in bytes. *)
Definition NAME_MAX : nat := 255.

Definition ENAMETOOLONG : error := errorString "file name too long".

(** A Linux file system on which the directories of the program can be
    made. *)
Definition linux : Env :=
  {| MkdirAll := fun _ => None;
     nameError := fun name =>
       if (NAME_MAX <? String.length name)%nat then Some ENAMETOOLONG
       else None |}.

End os.

(** [path/filepath] on Unix. *)
Module filepath.
(** What comes before the last separator of [path], if it has one. *)
Fixpoint beforeLastSeparator (path : string) : option string :=
  match path with
  | EmptyString => None
  | String c rest =>
      match beforeLastSeparator rest with
      | Some dir => Some (String c dir)
      | None => if Ascii.eqb c "/" then Some "" else None
      end
  end.

(** [filepath.Dir(path)], for a path [filepath.Clean] leaves as it is. *)
Definition Dir (path : string) : string :=
  match beforeLastSeparator path with
  | None => "."
  | Some EmptyString => "/"
  | Some dir => dir
  end.
End filepath.

(** ** Package cache (internal/cache/cache.go) *)
Module cache.
Import time.

Record Cache : Type := {
  directory : string;
  coursesTTL : Duration;
  courseworkTTL : Duration
}.

Record Configuration : Type := {
  Enabled : bool;
  CoursesTTL : Duration;
  CourseworkTTL : Duration;
  Directory : string
}.

Record CacheEntry : Type := {
  Data : json.RawMessage;
  CachedAt : Time;
  ExpiresAt : Time
}.

Record CacheStats : Type := {
  TotalEntries : Z;
  ValidEntries : Z;
  ExpiredEntries : Z;
  TotalSize : Z
}.

(** [NewCache] with a configuration; the directory it ensures is the
    state the operations below work on. *)
Definition NewCache (cfg : Configuration) : Cache :=
  {| directory := Directory cfg;
     coursesTTL := CoursesTTL cfg;
     courseworkTTL := CourseworkTTL cfg |}.

(** [getPath]: the name of the file of a key.  [filepath.Join] with
    [c.directory] is left implicit: the state of the cache is the content
    of that directory, keyed by file name. *)
Definition getPath (c : Cache) (key : string) : string :=
  let safeKey := gostrings.ReplaceAll key "/"%char "_" in
  let safeKey := gostrings.ReplaceAll safeKey ":"%char "_" in
  let safeKey := gostrings.ReplaceAll safeKey " "%char "_" in
  safeKey +:+ ".json".

(** [GenerateKey].  A Go [range] over a map visits the entries in an
    order the language leaves unspecified and the runtime randomises;
    [visit] is the order of this call, a permutation of the entries of
    [params]. *)
Definition GenerateKey (endpoint : string) (visit : list (string * string))
  : string :=
  let parts := [endpoint] in
  let parts :=
    fold_left (fun parts kv => (parts ++ [fst kv +:+ "=" +:+ snd kv])%list)
              visit parts in
  gostrings.Join parts "&".

(** The orders in which [range params] may visit a map. *)
Definition rangeOrder (params : gmap string string)
           (visit : list (string * string)) : Prop :=
  visit ≡ₚ map_to_list params.

(** The content of [c.directory]. *)
Abbreviation Dir := (gmap string (os.Node json.Bytes)).

(** What an entry written by [Set] is read back as: the payload, which
    [json.MarshalIndent] writes one level inside the entry, comes back
    re-indented; the two instants come back as they were. *)
Definition readBack (entry : CacheEntry) : CacheEntry :=
  {| Data := json.Indent 1 (Data entry);
     CachedAt := CachedAt entry;
     ExpiresAt := ExpiresAt entry |}.

Section WithCodec.
Context {codec : json.Codec CacheEntry readBack} {env : os.Env}.

(** [Get], at clock reading [now]: the new directory, the entry and the
    error.  The error of the [os.Remove] of an expired entry is dropped,
    as in the code. *)
Definition Get (c : Cache) (key : string) (now : Time) (d : Dir)
  : Dir * (option CacheEntry * option error) :=
  let path := getPath c key in
  match os.ReadFile d path with
  | os.NotExist => (d, (None, None))
  | os.Failed err =>
      (d, (None, Some (wrapError "failed to read cache: " err)))
  | os.Done data =>
      match json.Unmarshal data with
      | Err err =>
          (d, (None, Some (wrapError "failed to parse cache entry: " err)))
      | Ok entry =>
          if After now (ExpiresAt entry)
          then (fst (os.Remove d path), (None, None))
          else (d, (Some entry, None))
      end
  end.

(** [Set], at clock reading [now].  [filepath.Dir(path)] is the cache
    directory itself, the file name holding no separator. *)
Definition Set_ {V} {m : json.Marshaler V}
           (c : Cache) (key : string) (value : V) (ttl : Duration)
           (now : Time) (d : Dir) : Dir * option error :=
  let path := getPath c key in
  let dir := directory c in
  match os.MkdirAll dir with
  | Some err =>
      (d, Some (wrapError "failed to create cache directory: " err))
  | None =>
      match json.Marshal value with
      | Err err => (d, Some (wrapError "failed to marshal data: " err))
      | Ok jsonData =>
          let entry := {| Data := jsonData;
                          CachedAt := now;
                          ExpiresAt := Add now ttl |} in
          match json.MarshalIndent entry with
          | Err err =>
              (d, Some (wrapError "failed to marshal cache entry: " err))
          | Ok jsonBytes =>
              match os.WriteFile d path jsonBytes with
              | (d', Some err) =>
                  (d', Some (wrapError "failed to write cache: " err))
              | (d', None) => (d', None)
              end
          end
      end
  end.

(** [Delete]. *)
Definition Delete (c : Cache) (key : string) (d : Dir)
  : Dir * option error :=
  match os.Remove d (getPath c key) with
  | (d', os.Failed err) =>
      (d', Some (wrapError "failed to delete cache: " err))
  | (d', _) => (d', None)
  end.

(** One turn of the loop of [GetStats] over the directory entries. *)
Definition statsEntry (now : Time) (name : string)
           (entry : os.Node json.Bytes) (stats : CacheStats)
  : CacheStats :=
  if os.IsDir entry then stats
  else
    let total := TotalEntries stats + 1 in
    match entry with
    | os.Regular data =>
        let sz := TotalSize stats + json.size data in
        match json.Unmarshal data with
        | Err _ =>
            {| TotalEntries := total;
               ValidEntries := ValidEntries stats;
               ExpiredEntries := ExpiredEntries stats;
               TotalSize := sz |}
        | Ok cacheEntry =>
            if After now (ExpiresAt cacheEntry)
            then {| TotalEntries := total;
                    ValidEntries := ValidEntries stats;
                    ExpiredEntries := ExpiredEntries stats + 1;
                    TotalSize := sz |}
            else {| TotalEntries := total;
                    ValidEntries := ValidEntries stats + 1;
                    ExpiredEntries := ExpiredEntries stats;
                    TotalSize := sz |}
        end
    | _ =>
        {| TotalEntries := total;
           ValidEntries := ValidEntries stats;
           ExpiredEntries := ExpiredEntries stats;
           TotalSize := TotalSize stats |}
    end.

(** [GetStats], at clock reading [now].  [os.ReadDir] lists the
    directory that is the state, so it does not fail here. *)
Definition GetStats (c : Cache) (now : Time) (d : Dir) : CacheStats :=
  map_fold (statsEntry now)
           {| TotalEntries := 0; ValidEntries := 0;
              ExpiredEntries := 0; TotalSize := 0 |} d.

(** [Clear]: the loop over the entries [os.ReadDir] lists, which skips
    the directories and removes every other entry.  As in [Get], the
    [os.Remove] of a file is taken to succeed. *)
Definition Clear (c : Cache) (d : Dir) : Dir * option error :=
  (map_fold (fun name entry (dir : Dir) =>
               if os.IsDir entry then dir else delete name dir) d d,
   None).
End WithCodec.
End cache.

(** ** golang.org/x/oauth2: tokens and token sources *)
Module oauth2.
Import time.

Record Token : Type := {
  AccessToken : string;
  TokenType : string;
  RefreshToken : string;
  Expiry : Time
}.

(** The token endpoint of the provider: the answer to a refresh request
    carrying the given refresh token. *)
Record Config : Type := {
  ClientID : string;
  ClientSecret : string;
  RedirectURL : string;
  Scopes : list string;
  Endpoint : string -> Result Token
}.

Definition defaultExpiryDelta : Duration := 10 * Second.

(** [t.expired()], at clock reading [now]. *)
Definition expired (t : Token) (now : Time) : bool :=
  if IsZero (Expiry t) then false
  else Before (Add (Expiry t) (- defaultExpiryDelta)) now.

(** [t.Valid()], at clock reading [now]. *)
Definition Valid (t : Token) (now : Time) : bool :=
  negb (String.eqb (AccessToken t) "") && negb (expired t now).

(** [conf.TokenSource(ctx, t).Token()]: the token is reused while it is
    valid, and refreshed at the endpoint otherwise. *)
Definition TokenSource_Token (conf : Config) (t : Token) (now : Time)
  : Result Token :=
  if Valid t now then Ok t
  else if String.eqb (RefreshToken t) ""
       then Err (errorString
                   "oauth2: token expired and refresh token is not set")
       else Endpoint conf (RefreshToken t).
End oauth2.

(** ** Package auth (internal/auth/oauth.go) *)
Module auth.
Import time.

Record Authenticator : Type := {
  config : oauth2.Config;
  configPath : string;
  tokenPath : string
}.

Record TokenInfo : Type := {
  Email : string;
  AccessToken : string;
  Expiry : Time;
  NeedsRefresh : bool
}.

(** The handler [Login] registers for /callback, for the state [Login]
    issued and the [state] and [code] query parameters of one request (an
    absent parameter reads as the empty string): what the handler sends,
    a code on [codeChan] or an error on [errChan], and the HTTP status it
    answers with. *)
Definition callbackHandler (state qstate qcode : string)
  : Result string * Z :=
  if negb (String.eqb qstate state)
  then (Err (errorString "state mismatch"), 400)
  else if String.eqb qcode ""
       then (Err (errorString "no code in callback"), 400)
       else (Ok qcode, 200).

(** What the [select] of [Login] receives first: the outcome of a callback
    request, an error of the local server, or the five-minute timer. *)
Inductive Arrival : Type :=
| CallbackRequest (qstate qcode : string)
| ServerError (err : error)
| TimedOut.

(** [ExchangeCode]; [exchange] is the answer of the provider to
    [a.config.Exchange] for a given authorization code. *)
Definition ExchangeCode (a : Authenticator)
           (exchange : string -> Result oauth2.Token) (code : string)
  : Result oauth2.Token :=
  match exchange code with
  | Err err => Err (wrapError "failed to exchange code: " err)
  | Ok token => Ok token
  end.

Section WithCodec.
Context {codec : json.Codec oauth2.Token (fun token => token)}
        {env : os.Env}.

(** The file at [a.tokenPath], if there is one. *)
Definition Store : Type := option (os.Node json.Bytes).

(** [loadToken]. *)
Definition loadToken (a : Authenticator) (st : Store) : Result oauth2.Token :=
  match st with
  | None => Err (errorString "no stored token found")
  | Some (os.Unreadable err) | Some (os.SubDir err) =>
      Err (wrapError "failed to read token: " err)
  | Some (os.Regular data) =>
      match json.Unmarshal data with
      | Err err => Err (wrapError "failed to parse token: " err)
      | Ok token => Ok token
      end
  end.

(** [SaveToken].  As in [os.WriteFile], the failures of the write are
    those of opening the file. *)
Definition SaveToken (a : Authenticator) (token : oauth2.Token) (st : Store)
  : Store * option error :=
  let dir := filepath.Dir (tokenPath a) in
  match os.MkdirAll dir with
  | Some err =>
      (st, Some (wrapError "failed to create token directory: " err))
  | None =>
      match json.MarshalIndent token with
      | Err err => (st, Some (wrapError "failed to marshal token: " err))
      | Ok data =>
          match st with
          | Some (os.Unreadable err) | Some (os.SubDir err) =>
              (st, Some (wrapError "failed to write token: " err))
          | _ => (Some (os.Regular data), None)
          end
      end
  end.

(** [DeleteToken]. *)
Definition DeleteToken (a : Authenticator) (st : Store)
  : Store * option error :=
  (None, None).

(** [IsAuthenticated], at clock reading [now]. *)
Definition IsAuthenticated (a : Authenticator) (now : Time) (st : Store)
  : bool :=
  match loadToken a st with
  | Err _ => false
  | Ok token =>
      oauth2.Valid token now
      || negb (String.eqb (oauth2.RefreshToken token) "")
  end.

(** [RefreshToken], at clock reading [now]. *)
Definition RefreshToken (a : Authenticator) (now : Time) (st : Store)
  : Store * Result oauth2.Token :=
  match loadToken a st with
  | Err err => (st, Err err)
  | Ok token =>
      if String.eqb (oauth2.RefreshToken token) ""
      then (st, Err (errorString "no refresh token available"))
      else
        match oauth2.TokenSource_Token (config a) token now with
        | Err err => (st, Err (wrapError "failed to refresh token: " err))
        | Ok newToken =>
            match SaveToken a newToken st with
            | (st', Some err) => (st', Err err)
            | (st', None) => (st', Ok newToken)
            end
        end
  end.

(** [Status], at clock reading [now]. *)
Definition Status (a : Authenticator) (now : Time) (st : Store)
  : TokenInfo * option error :=
  match loadToken a st with
  | Err _ =>
      ({| Email := ""; AccessToken := ""; Expiry := 0;
          NeedsRefresh := false |}, None)
  | Ok token =>
      ({| Email := "";
          AccessToken := oauth2.AccessToken token;
          Expiry := oauth2.Expiry token;
          NeedsRefresh := negb (oauth2.Valid token now) |}, None)
  end.

(** [Login].  [unixNano] is the clock reading the state is made of,
    [browser] the error of [OpenBrowser] if it fails, [arrival] what the
    [select] receives first. *)
Definition Login (a : Authenticator)
           (exchange : string -> Result oauth2.Token)
           (unixNano : Z) (browser : option error) (arrival : Arrival)
           (st : Store) : Store * option error :=
  let state := "state_" +:+ Itoa unixNano in
  match browser with
  | Some err => (st, Some (wrapError "failed to open browser: " err))
  | None =>
      match arrival with
      | TimedOut => (st, Some (errorString "authentication timeout"))
      | ServerError err => (st, Some err)
      | CallbackRequest qstate qcode =>
          match fst (callbackHandler state qstate qcode) with
          | Err err => (st, Some err)
          | Ok code =>
              match ExchangeCode a exchange code with
              | Err err =>
                  (st, Some (wrapError "failed to exchange code: " err))
              | Ok token =>
                  match SaveToken a token st with
                  | (st', Some err) =>
                      (st', Some (wrapError "failed to save token: " err))
                  | (st', None) => (st', None)
                  end
              end
          end
      end
  end.
End WithCodec.
End auth.

(** ** context: a context ends at one instant, or never *)
Module context.
Import time.

(** How a context ends: its [cancel] function is called, or the deadline
    [WithTimeout] or [WithDeadline] gave it passes. *)
Inductive Ending : Type :=
| CancelCalled
| DeadlinePassed.

(** A context: the instant it ends at, if it ever does, and how.  A poll
    made at that very instant races with the ending and may still find the
    context live; [seenAtOnce] says whether such a poll already finds it
    done. *)
Record Context : Type := {
  endsAt : option Time;
  ending : Ending;
  seenAtOnce : bool
}.

Definition Background : Context :=
  {| endsAt := None; ending := CancelCalled; seenAtOnce := true |}.

(** [WithCancel(Background())] whose [cancel] is called at the instant
    [at_]. *)
Definition WithCancel (at_ : Time) (seen : bool) : Context :=
  {| endsAt := Some at_; ending := CancelCalled; seenAtOnce := seen |}.

(** [WithTimeout(Background(), timeout)] made at the instant [now] and
    never cancelled. *)
Definition WithTimeout (now : Time) (timeout : Duration) (seen : bool)
  : Context :=
  {| endsAt := Some (now + timeout); ending := DeadlinePassed;
     seenAtOnce := seen |}.

(** What the poll [select { case <-ctx.Done(): ... default: }] finds at
    clock reading [now]: whether the channel is ready. *)
Definition Done (ctx : Context) (now : Time) : bool :=
  match endsAt ctx with
  | Some t => (t <? now) || ((t =? now) && seenAtOnce ctx)
  | None => false
  end.

Definition Canceled : error := errorString "context canceled".
Definition DeadlineExceeded : error :=
  errorString "context deadline exceeded".

(** [ctx.Err()] of a context that is done. *)
Definition Err_ (ctx : Context) : error :=
  match ending ctx with
  | CancelCalled => Canceled
  | DeadlinePassed => DeadlineExceeded
  end.
End context.

(** ** google.golang.org/api/classroom/v1: the remote schema and service *)
Module classroom.
Record Course : Type := {
  Id : string;
  Name : string;
  Section_ : string;
  DescriptionHeading : string;
  Room : string;
  OwnerId : string;
  EnrollmentCode : string;
  CourseState : string;
  CreationTime : string;
  UpdateTime : string
}.

Record ListCoursesResponse : Type := {
  Courses : list Course;
  NextPageToken : string
}.

(** The remote side.  Each answer may depend on how many requests the
    service has handled before ([nat]) and on the request itself: the page
    token of [Courses.List], the id of [Courses.Get]. *)
Record Service : Type := {
  CoursesListDo : nat -> option string -> Result ListCoursesResponse;
  CoursesGetDo : nat -> string -> Result Course
}.
End classroom.

(** ** Package api (internal/api/client.go) *)
Module api.
Import time.

Record Client : Type := {
  service : classroom.Service
}.

Record Configuration : Type := {
  RateLimitBackoff : Duration;
  MaxRetries : Z
}.

Definition DefaultConfiguration : Configuration :=
  {| RateLimitBackoff := 1 * Second; MaxRetries := 3 |}.

(** [NewClient]; [svc] is the service [classroom.NewService] builds over
    the token source.  A [nil] configuration is [None]. *)
Definition NewClient (svc : classroom.Service) (cfg : option Configuration)
  : Client :=
  let cfg := match cfg with
             | None => DefaultConfiguration
             | Some cfg => cfg
             end in
  {| service := svc |}.

Record Course : Type := {
  ID : string;
  Name : string;
  Section_ : string;
  Description : string;
  Room : string;
  OwnerID : string;
  EnrollmentCode : string;
  CourseState : string;
  TimeCreated : string;
  UpdateTime : string
}.

(** [convertCourse]. *)
Definition convertCourse (c : classroom.Course) : Course :=
  {| ID := classroom.Id c;
     Name := classroom.Name c;
     Section_ := classroom.Section_ c;
     Description := classroom.DescriptionHeading c;
     Room := classroom.Room c;
     OwnerID := classroom.OwnerId c;
     EnrollmentCode := classroom.EnrollmentCode c;
     CourseState := classroom.CourseState c;
     TimeCreated := classroom.CreationTime c;
     UpdateTime := classroom.UpdateTime c |}.

(** What a call leaves behind: the clock, every request sent to the remote
    service with the instant it was sent at, and every [time.Sleep] with
    the instant it began at and its duration. *)
Inductive Request : Type :=
| CoursesList (pageToken : option string)
| CoursesGet (courseID : string).

Record World : Type := {
  now : Time;
  requests : list (Time * Request);
  sleeps : list (Time * Duration)
}.

(** [time.Sleep(d)]. *)
Definition Sleep (d : Duration) (w : World) : World :=
  {| now := now w + Z.max d 0;
     requests := requests w;
     sleeps := (sleeps w ++ [(now w, d)])%list |}.

Definition send (r : Request) (w : World) : World :=
  {| now := now w;
     requests := (requests w ++ [(now w, r)])%list;
     sleeps := sleeps w |}.

(** One HTTP round trip: the request is sent, and the service answers it
    as its [n]-th request, [n] counting the requests sent before. *)
Definition roundTrip {T} (answer : nat -> Result T) (r : Request)
           (w : World) : Result T * World :=
  (answer (length (requests w)), send r w).

(** [c.service.Courses.List().PageToken(tok).Do()] and
    [c.service.Courses.Get(courseID).Do()]. *)
Definition CoursesList_Do (c : Client) (pageToken : option string)
  : World -> Result classroom.ListCoursesResponse * World :=
  roundTrip (fun n => classroom.CoursesListDo (service c) n pageToken)
            (CoursesList pageToken).

Definition CoursesGet_Do (c : Client) (courseID : string)
  : World -> Result classroom.Course * World :=
  roundTrip (fun n => classroom.CoursesGetDo (service c) n courseID)
            (CoursesGet courseID).

(** [isRateLimitError]. *)
Definition isRateLimitError (err : error) : bool :=
  let errStr := Error err in
  gostrings.Contains errStr "429" || gostrings.Contains errStr "rate limit".

(** [isAPIError]. *)
Definition isAPIError (err : error) : bool :=
  let errStr := Error err in
  gostrings.Contains errStr "403" || gostrings.Contains errStr "404"
  || gostrings.Contains errStr "401".

(** The loop of [executeWithRetry]; [remaining] is [3 - attempt]. *)
Fixpoint retryLoop {T} (ctx : context.Context)
         (fn : World -> Result T * World)
         (remaining : nat) (backoff : Duration) (lastErr : option error)
         (w : World) : Result T * World :=
  match remaining with
  | O =>
      (Err match lastErr with
           | Some cause => wrapError "after 3 attempts: " cause
           | None => errorString "after 3 attempts: %!w(<nil>)"
           end, w)
  | S remaining' =>
      if context.Done ctx (now w) then (Err (context.Err_ ctx), w)
      else
        match fn w with
        | (Ok resp, w1) => (Ok resp, w1)
        | (Err err, w1) =>
            if isRateLimitError err
            then retryLoop ctx fn remaining' (backoff * 2) (Some err)
                           (Sleep backoff w1)
            else if isAPIError err then (Err err, w1)
            else retryLoop ctx fn remaining' backoff (Some err) w1
        end
  end.

(** [executeWithRetry]. *)
Definition executeWithRetry {T} (c : Client) (ctx : context.Context)
           (fn : World -> Result T * World) (w : World)
  : Result T * World :=
  retryLoop ctx fn 3 Second None w.

(** The page token a [Courses.List] request carries: [req.PageToken] is
    called only for a token that is not empty. *)
Definition sentToken (pageToken : string) : option string :=
  if String.eqb pageToken "" then None else Some pageToken.

(** The loop of [ListCourses].  It runs until a page comes without a
    continuation token; [fuel] bounds the number of pages fetched, and a
    result [None] says the loop was still running when the bound was
    reached. *)
Fixpoint listCoursesLoop (fuel : nat) (c : Client) (ctx : context.Context)
         (courses : list Course) (pageToken : string) (w : World)
  : option (Result (list Course)) * World :=
  match fuel with
  | O => (None, w)
  | S fuel' =>
      let req := sentToken pageToken in
      match executeWithRetry c ctx (CoursesList_Do c req) w with
      | (Err err, w1) =>
          (Some (Err (wrapError "failed to list courses: " err)), w1)
      | (Ok resp, w1) =>
          let courses :=
            (courses ++ map convertCourse (classroom.Courses resp))%list in
          let pageToken := classroom.NextPageToken resp in
          if String.eqb pageToken "" then (Some (Ok courses), w1)
          else listCoursesLoop fuel' c ctx courses pageToken w1
      end
  end.

(** [ListCourses]. *)
Definition ListCourses (fuel : nat) (c : Client) (ctx : context.Context)
           (w : World) : option (Result (list Course)) * World :=
  listCoursesLoop fuel c ctx [] "" w.

(** [GetCourse]. *)
Definition GetCourse (c : Client) (ctx : context.Context)
           (courseID : string) (w : World) : Result Course * World :=
  match executeWithRetry c ctx (CoursesGet_Do c courseID) w with
  | (Err err, w1) =>
      (Err (wrapError ("failed to get course " +:+ courseID +:+ ": ") err),
       w1)
  | (Ok resp, w1) => (Ok (convertCourse resp), w1)
  end.
End api.

(** ** Concrete situations, for the examples evaluated below *)

Definition exampleCache : cache.Cache :=
  cache.NewCache {| cache.Enabled := true;
                    cache.CoursesTTL := 5 * time.Minute;
                    cache.CourseworkTTL := 1 * time.Hour;
                    cache.Directory := "/home/user/.cache/google-classroom" |}.

(** An empty course list cached at instant 0 for ten seconds. *)
Definition exampleEntry : cache.CacheEntry :=
  {| cache.Data := "[]"; cache.CachedAt := 0;
     cache.ExpiresAt := 10 * time.Second |}.

(** The course identifiers 1 and 2 as [json.Marshal] writes them, and as
    they come back from a cache file. *)
Definition compactIds : json.RawMessage := "[1,2]".
Definition indentedIds : json.RawMessage :=
  "[" +:+ json.newline 2 +:+ "1," +:+ json.newline 2 +:+ "2"
      +:+ json.newline 1 +:+ "]".

(** A key of 251 bytes, whose file name has 256. *)
Definition longKey : string := String.concat "" (repeat "k" 251).

Definition invalidGrant : error :=
  errorString "oauth2: cannot fetch token: 400 Bad Request, invalid_grant".

(** An authenticator whose provider refuses every refresh. *)
Definition exampleAuthenticator : auth.Authenticator :=
  {| auth.config :=
       {| oauth2.ClientID := "client"; oauth2.ClientSecret := "secret";
          oauth2.RedirectURL := "http://localhost:8080/callback";
          oauth2.Scopes := [];
          oauth2.Endpoint := fun _ => Err invalidGrant |};
     auth.configPath := "config.json";
     auth.tokenPath := "/home/user/.config/google-classroom/tokens.json" |}.

(** A token that expired at second 1000 and still has a refresh token. *)
Definition staleToken : oauth2.Token :=
  {| oauth2.AccessToken := "old-access"; oauth2.TokenType := "Bearer";
     oauth2.RefreshToken := "revoked-refresh";
     oauth2.Expiry := 1000 * time.Second |}.

Definition w0 : api.World :=
  {| api.now := 0; api.requests := []; api.sleeps := [] |}.

Definition e429 : error :=
  googleapiError 429 "Quota exceeded, rateLimitExceeded".
Definition e400 : error := googleapiError 400 "Invalid value, badRequest".
Definition e404 : error :=
  googleapiError 404 "Requested entity was not found., notFound".

Definition mkCourse (id name : string) : classroom.Course :=
  {| classroom.Id := id; classroom.Name := name; classroom.Section_ := "A";
     classroom.DescriptionHeading := ""; classroom.Room := "";
     classroom.OwnerId := "teacher"; classroom.EnrollmentCode := "";
     classroom.CourseState := "ACTIVE"; classroom.CreationTime := "";
     classroom.UpdateTime := "" |}.

(** A remote that answers every request with the same error. *)
Definition svcAlways (err : error) : classroom.Service :=
  {| classroom.CoursesListDo := fun _ _ => Err err;
     classroom.CoursesGetDo := fun _ _ => Err err |}.

(** A remote that is rate-limited for its first [n] requests and answers
    from then on. *)
Definition svcRateLimitedFor (n : nat) : classroom.Service :=
  {| classroom.CoursesListDo := fun k _ =>
       if (k <? n)%nat then Err e429
       else Ok {| classroom.Courses := []; classroom.NextPageToken := "" |};
     classroom.CoursesGetDo := fun k id =>
       if (k <? n)%nat then Err e429 else Ok (mkCourse id "Algebra") |}.

(** Five courses on three pages of sizes 2, 2 and 1. *)
Definition page1 : classroom.ListCoursesResponse :=
  {| classroom.Courses := [mkCourse "1" "Algebra"; mkCourse "2" "Biology"];
     classroom.NextPageToken := "t1" |}.
Definition page2 : classroom.ListCoursesResponse :=
  {| classroom.Courses := [mkCourse "3" "Chemistry"; mkCourse "4" "Drama"];
     classroom.NextPageToken := "t2" |}.
Definition page3 : classroom.ListCoursesResponse :=
  {| classroom.Courses := [mkCourse "5" "English"];
     classroom.NextPageToken := "" |}.

Definition svcPaged : classroom.Service :=
  {| classroom.CoursesListDo := fun _ tok =>
       match tok with
       | None => Ok page1
       | Some tok =>
           if String.eqb tok "t1" then Ok page2
           else if String.eqb tok "t2" then Ok page3
           else Err e400
       end;
     classroom.CoursesGetDo := fun _ _ => Err e404 |}.

(** A configuration asking for five attempts, the first backoff two
    seconds long. *)
Definition cfg5 : api.Configuration :=
  {| api.RateLimitBackoff := 2 * time.Second; api.MaxRetries := 5 |}.

(** A not-found answer whose message happens to contain 429. *)
Definition e404about429 : error :=
  googleapiError 404 "Course 429 was not found., notFound".


(** A remote whose every page comes with a continuation token. *)
Definition svcEndless : classroom.Service :=
  {| classroom.CoursesListDo := fun _ _ =>
       Ok {| classroom.Courses := [mkCourse "1" "Algebra"];
             classroom.NextPageToken := "more" |};
     classroom.CoursesGetDo := fun _ _ => Err e404 |}.

(** ** Proof automation *)

(** Nothing new in a trace of requests or sleeps: the empty extension. *)
Ltac trace_unchanged :=
  exists []; rewrite app_nil_r; split; [reflexivity|constructor].

(** * Theorems *)

(** ** The response cache *)
Section CacheFacts.
Import time.
Context {codec : json.Codec cache.CacheEntry cache.readBack} {env : os.Env}.

Lemma CacheStats_eq (s1 s2 : cache.CacheStats) :
  cache.TotalEntries s1 = cache.TotalEntries s2 ->
  cache.ValidEntries s1 = cache.ValidEntries s2 ->
  cache.ExpiredEntries s1 = cache.ExpiredEntries s2 ->
  cache.TotalSize s1 = cache.TotalSize s2 ->
  s1 = s2.
Proof. destruct s1, s2; simpl; intros; subst; reflexivity. Qed.

(** The order in which [GetStats] meets two directory entries does not
    matter. *)
Lemma statsEntry_comm now k1 n1 k2 n2 stats :
  cache.statsEntry now k1 n1 (cache.statsEntry now k2 n2 stats)
  = cache.statsEntry now k2 n2 (cache.statsEntry now k1 n1 stats).
Proof.
  unfold cache.statsEntry.
  destruct n1 as [b1|e1|e1], n2 as [b2|e2|e2]; simpl; try reflexivity;
    repeat match goal with
           | |- context [json.Unmarshal ?b] =>
               destruct (json.Unmarshal b) as [?|?]; simpl
           | |- context [After ?a ?b] => destruct (After a b); simpl
           end;
    apply CacheStats_eq; simpl; lia.
Qed.

Lemma GetStats_insert_fresh c now (d : cache.Dir) path node :
  d !! path = None ->
  cache.GetStats c now (<[path := node]> d)
  = cache.statsEntry now path node (cache.GetStats c now d).
Proof.
  intros Hfresh. unfold cache.GetStats.
  apply (map_fold_insert_L (cache.statsEntry now)); [|exact Hfresh].
  intros; apply statsEntry_comm.
Qed.

(** A file that parses to an entry not yet expired counts as valid. *)
Lemma statsEntry_valid now path data entry stats :
  json.Unmarshal data = Ok entry ->
  After now (cache.ExpiresAt entry) = false ->
  cache.ValidEntries (cache.statsEntry now path (os.Regular data) stats)
  = cache.ValidEntries stats + 1.
Proof.
  intros Hparse Hlive. unfold cache.statsEntry; simpl.
  rewrite Hparse, Hlive. reflexivity.
Qed.

(** What [os.ReadFile] answers, by the name and by what the directory
    holds under it. *)
Lemma ReadFile_cases (d : cache.Dir) name :
  (exists cause, os.nameError name = Some cause
                 /\ os.ReadFile d name = os.Failed cause)
  \/ (os.nameError name = None
      /\ ((d !! name = None /\ os.ReadFile d name = os.NotExist)
          \/ (exists cause,
                 (d !! name = Some (os.Unreadable cause)
                  \/ d !! name = Some (os.SubDir cause))
                 /\ os.ReadFile d name = os.Failed cause)
          \/ (exists data,
                 d !! name = Some (os.Regular data)
                 /\ os.ReadFile d name = os.Done data))).
Proof.
  unfold os.ReadFile.
  destruct (os.nameError name) as [cause|]; [left; eauto|right].
  split; [reflexivity|].
  destruct (d !! name) as [[data|cause|cause]|]; eauto 6.
Qed.

(** What a successful [Set] needed, and what it leaves in the directory. *)
Lemma Set_success {V} {m : json.Marshaler V} c key (value : V) ttl t0
      (d d' : cache.Dir) :
  cache.Set_ c key value ttl t0 d = (d', None) ->
  os.MkdirAll (cache.directory c) = None
  /\ os.nameError (cache.getPath c key) = None
  /\ (forall cause,
        d !! cache.getPath c key <> Some (os.Unreadable cause)
        /\ d !! cache.getPath c key <> Some (os.SubDir cause))
  /\ exists raw bytes,
       json.Marshal value = Ok raw
       /\ json.MarshalIndent {| cache.Data := raw; cache.CachedAt := t0;
                                cache.ExpiresAt := t0 + ttl |} = Ok bytes
       /\ d' = <[cache.getPath c key := os.Regular bytes]> d.
Proof.
  unfold cache.Set_, os.WriteFile, Add. intros Hset.
  destruct (os.MkdirAll (cache.directory c)); [discriminate|].
  destruct (json.Marshal value) as [raw|err]; [|discriminate].
  destruct (json.MarshalIndent _) as [bytes|err] eqn:Hbytes; [|discriminate].
  destruct (os.nameError (cache.getPath c key)); [discriminate|].
  split; [reflexivity|]. split; [reflexivity|].
  destruct (d !! cache.getPath c key) as [[data|err|err]|] eqn:Hfile;
    try discriminate; inversion Hset; subst;
    (split; [intros cause; split; discriminate|]);
    exists raw, bytes; auto.
Qed.

(** A lookup of the file [Set] has just written, before and after its
    expiry. *)
Lemma Get_after_write c key now (d : cache.Dir) entry bytes :
  os.nameError (cache.getPath c key) = None ->
  json.MarshalIndent entry = Ok bytes ->
  cache.Get c key now (<[cache.getPath c key := os.Regular bytes]> d)
  = if After now (cache.ExpiresAt entry)
    then (delete (cache.getPath c key) d, (None, None))
    else (<[cache.getPath c key := os.Regular bytes]> d,
          (Some (cache.readBack entry), None)).
Proof.
  intros Hname Hbytes. unfold cache.Get, os.ReadFile, os.Remove.
  rewrite Hname, lookup_insert_eq.
  rewrite (json.Unmarshal_MarshalIndent _ _ Hbytes). simpl.
  destruct (After now (cache.ExpiresAt entry)); [|reflexivity].
  simpl. rewrite delete_insert_eq. reflexivity.
Qed.

(** Claim C5, as the code has it: an entry stored at [t0] with
    time-to-live [ttl] is served by every lookup made up to and including
    the instant [t0 + ttl], with the stored payload as
    [json.MarshalIndent] re-indented it, and the statistics count it as
    one more valid entry; a lookup made strictly after that instant is a
    miss that removes the file, and from then on the statistics are those
    of the directory without it. *)
Theorem C5_entry_served_until_expiry_inclusive
        {V} {m : json.Marshaler V} (c : cache.Cache) (key : string)
        (value : V) (ttl : Duration) (t0 : Time) (d d' : cache.Dir) :
  cache.Set_ c key value ttl t0 d = (d', None) ->
  exists raw entry,
    json.Marshal value = Ok raw /\
    cache.Data entry = json.Indent 1 raw /\
    cache.CachedAt entry = t0 /\
    cache.ExpiresAt entry = Add t0 ttl /\
    (forall now, now <= t0 + ttl ->
       cache.Get c key now d' = (d', (Some entry, None)) /\
       cache.ValidEntries (cache.GetStats c now d')
       = cache.ValidEntries
           (cache.GetStats c now (delete (cache.getPath c key) d)) + 1) /\
    (forall now, t0 + ttl < now ->
       exists d'',
         cache.Get c key now d' = (d'', (None, None)) /\
         d'' !! cache.getPath c key = None /\
         forall later,
           cache.GetStats c later d''
           = cache.GetStats c later (delete (cache.getPath c key) d)).
Proof.
  intros Hset.
  apply Set_success in Hset
    as (_ & Hname & _ & raw & bytes & Hraw & Hbytes & ->).
  set (path := cache.getPath c key) in *.
  set (stored := {| cache.Data := raw; cache.CachedAt := t0;
                    cache.ExpiresAt := t0 + ttl |}) in *.
  exists raw, (cache.readBack stored).
  split; [exact Hraw|]. split; [reflexivity|].
  split; [reflexivity|]. split; [reflexivity|].
  split.
  - intros now Hnow. split.
    + unfold path. rewrite (Get_after_write c key now d stored bytes Hname Hbytes).
      unfold After; simpl.
      destruct (Z.ltb_spec (t0 + ttl) now); [lia|reflexivity].
    + rewrite <- (insert_delete_eq d path).
      rewrite GetStats_insert_fresh by apply lookup_delete_eq.
      apply statsEntry_valid with (entry := cache.readBack stored).
      * apply (json.Unmarshal_MarshalIndent _ _ Hbytes).
      * unfold After; simpl. apply Z.ltb_ge. lia.
  - intros now Hnow. exists (delete path d).
    split; [|split; [|reflexivity]].
    + unfold path. rewrite (Get_after_write c key now d stored bytes Hname Hbytes).
      unfold After; simpl.
      destruct (Z.ltb_spec (t0 + ttl) now); [|lia]. reflexivity.
    + apply lookup_delete_eq.
Qed.

(** The ways a lookup can go, by the name of the file of the key and by
    what is at it. *)
Lemma Get_cases c key now (d : cache.Dir) :
  let path := cache.getPath c key in
  (exists cause,
      os.nameError path = Some cause
      /\ cache.Get c key now d
         = (d, (None, Some (wrapError "failed to read cache: " cause))))
  \/ (os.nameError path = None
      /\ ((d !! path = None /\ cache.Get c key now d = (d, (None, None)))
          \/ (exists cause,
                 (d !! path = Some (os.Unreadable cause)
                  \/ d !! path = Some (os.SubDir cause))
                 /\ cache.Get c key now d
                    = (d, (None,
                           Some (wrapError "failed to read cache: " cause))))
          \/ (exists data cause,
                 d !! path = Some (os.Regular data)
                 /\ json.Unmarshal data = Err cause
                 /\ cache.Get c key now d
                    = (d, (None,
                           Some (wrapError "failed to parse cache entry: "
                                           cause))))
          \/ (exists data entry,
                 d !! path = Some (os.Regular data)
                 /\ json.Unmarshal data = Ok entry
                 /\ cache.Get c key now d
                    = if After now (cache.ExpiresAt entry)
                      then (delete path d, (None, None))
                      else (d, (Some entry, None))))).
Proof.
  intros path. unfold cache.Get. fold path.
  destruct (ReadFile_cases d path)
    as [(cause & Hname & Hread)
       |(Hname & [(Hfile & Hread)
                 |[(cause & Hfile & Hread)|(data & Hfile & Hread)]])];
    rewrite Hread.
  - left. eauto.
  - right. split; [exact Hname|]. left. auto.
  - right. split; [exact Hname|]. right; left. eauto.
  - right. split; [exact Hname|]. right; right.
    destruct (json.Unmarshal data) as [entry|cause] eqn:Hparse.
    + right. exists data, entry. split; [exact Hfile|]. split; [exact Hparse|].
      unfold os.Remove. rewrite Hname, Hfile. reflexivity.
    + left. exists data, cause. auto.
Qed.

(** Claim C10, as the code has it: a lookup whose file name the operating
    system accepts and that finds no file, and a lookup that finds an
    expired entry, both answer with no entry and no error, so the caller
    cannot tell them apart; an error comes back exactly when the name of
    the file is refused, when the file is there but cannot be read, or
    when its content does not parse; and no entry comes with an error. *)
Theorem C10_miss_reported_without_error
        (c : cache.Cache) (key : string) (now : Time) (d : cache.Dir) :
  (os.nameError (cache.getPath c key) = None ->
   d !! cache.getPath c key = None ->
   cache.Get c key now d = (d, (None, None)))
  /\ (forall data entry,
        os.nameError (cache.getPath c key) = None ->
        d !! cache.getPath c key = Some (os.Regular data) ->
        json.Unmarshal data = Ok entry ->
        After now (cache.ExpiresAt entry) = true ->
        snd (cache.Get c key now d) = (None, None))
  /\ (forall err,
        snd (snd (cache.Get c key now d)) = Some err <->
        (exists cause,
            os.nameError (cache.getPath c key) = Some cause
            /\ err = wrapError "failed to read cache: " cause)
        \/ (os.nameError (cache.getPath c key) = None
            /\ exists cause,
                 (d !! cache.getPath c key = Some (os.Unreadable cause)
                  \/ d !! cache.getPath c key = Some (os.SubDir cause))
                 /\ err = wrapError "failed to read cache: " cause)
        \/ (os.nameError (cache.getPath c key) = None
            /\ exists data cause,
                 d !! cache.getPath c key = Some (os.Regular data)
                 /\ json.Unmarshal data = Err cause
                 /\ err = wrapError "failed to parse cache entry: " cause))
  /\ (forall err,
        snd (snd (cache.Get c key now d)) = Some err ->
        fst (snd (cache.Get c key now d)) = None).
Proof.
  destruct (Get_cases c key now d)
    as [(cause & Hname & Hget)
       |(Hname & [(Hfile & Hget)
                 |[(cause & Hfile & Hget)
                  |[(data & cause & Hfile & Hparse & Hget)
                   |(data & entry & Hfile & Hparse & Hget)]]])];
    rewrite Hget; clear Hget.
  - split; [congruence|]. split; [|split].
    + intros data entry Hn. congruence.
    + intros err. simpl. split.
      * intros H. inversion H; subst. left. eauto.
      * intros [(cz & Hz & ->)|[(Hz & _)|(Hz & _)]]; congruence.
    + reflexivity.
  - split; [reflexivity|]. split; [|split].
    + intros data entry _ Hd. congruence.
    + intros err. split; [discriminate|].
      intros [(cz & Hz & _)
             |[(_ & cz & [H|H] & _)|(_ & dz & cz & H & _)]]; congruence.
    + discriminate.
  - split; [destruct Hfile; congruence|]. split; [|split].
    + intros data entry _ Hd. destruct Hfile; congruence.
    + intros err. simpl. split.
      * intros H. inversion H; subst. right; left.
        split; [exact Hname|]. exists cause. auto.
      * intros [(cz & Hz & _)
               |[(_ & cz & Hz & ->)|(_ & dz & cz & H & _)]].
        -- congruence.
        -- destruct Hfile, Hz; congruence.
        -- destruct Hfile; congruence.
    + reflexivity.
  - split; [congruence|]. split; [|split].
    + intros data' entry _ Hd Hp. congruence.
    + intros err. simpl. split.
      * intros H. inversion H; subst. right; right.
        split; [exact Hname|]. exists data, cause. auto.
      * intros [(cz & Hz & _)
               |[(_ & cz & [H|H] & _)|(_ & dz & cz & H & Hp & ->)]];
          [congruence|congruence|congruence|].
        assert (dz = data) by congruence. subst dz. congruence.
    + reflexivity.
  - split; [congruence|]. split; [|split].
    + intros data' entry' _ Hd Hp Hexp.
      assert (data' = data) by congruence. subst data'.
      assert (entry' = entry) by congruence. subst entry'.
      rewrite Hexp. reflexivity.
    + intros err.
      assert (Hnone : snd (snd (if After now (cache.ExpiresAt entry)
                                then (delete (cache.getPath c key) d,
                                      (None, None))
                                else (d, (Some entry, None))))
                      = @None error)
        by (destruct (After now (cache.ExpiresAt entry)); reflexivity).
      rewrite Hnone. split; [discriminate|].
      intros [(cz & Hz & _)
             |[(_ & cz & [H|H] & _)|(_ & dz & cz & H & Hp & _)]];
        [congruence|congruence|congruence|].
      assert (dz = data) by congruence. subst dz. congruence.
    + intros err.
      destruct (After now (cache.ExpiresAt entry)); discriminate.
Qed.
End CacheFacts.

(** ** The token store *)
Section AuthFacts.
Import time.
Context {codec : json.Codec oauth2.Token (fun token => token)}
        {env : os.Env}.

Lemma SaveToken_then_load a token (st st' : auth.Store) :
  auth.SaveToken a token st = (st', None) ->
  auth.loadToken a st' = Ok token.
Proof.
  unfold auth.SaveToken. intros Hsave.
  destruct (os.MkdirAll _); [discriminate|].
  destruct (json.MarshalIndent token) as [data|err] eqn:Hdata;
    [|discriminate].
  destruct st as [[old|err|err]|]; inversion Hsave; subst; simpl;
    rewrite (json.Unmarshal_MarshalIndent _ _ Hdata); reflexivity.
Qed.

(** Claim C9: [IsAuthenticated] answers true exactly when a token loads
    from the store and that token is valid now or has a refresh token; so
    it answers false when nothing is stored, and false for a stored token
    that has expired and has no refresh token. *)
Theorem C9_IsAuthenticated_characterised
        (a : auth.Authenticator) (now : Time) (st : auth.Store) :
  (auth.IsAuthenticated a now st = true <->
   exists token,
     auth.loadToken a st = Ok token
     /\ (oauth2.Valid token now = true \/ oauth2.RefreshToken token <> ""))
  /\ (st = None -> auth.IsAuthenticated a now st = false)
  /\ (forall token,
        auth.loadToken a st = Ok token ->
        oauth2.expired token now = true ->
        oauth2.RefreshToken token = "" ->
        auth.IsAuthenticated a now st = false).
Proof.
  unfold auth.IsAuthenticated. split; [|split].
  - destruct (auth.loadToken a st) as [token|err].
    + rewrite orb_true_iff, negb_true_iff. split.
      * intros [Hvalid|Hrefresh]; exists token; split; auto.
        right. apply String.eqb_neq. exact Hrefresh.
      * intros (token' & Hload & Hcase). inversion Hload; subst token'.
        destruct Hcase as [Hvalid|Hrefresh]; [left; exact Hvalid|right].
        apply String.eqb_neq. exact Hrefresh.
    + split; [discriminate|]. intros (token & Hload & _). discriminate.
  - intros ->. reflexivity.
  - intros token Hload Hexp Hempty. rewrite Hload.
    unfold oauth2.Valid. rewrite Hexp, Hempty.
    rewrite andb_false_r. reflexivity.
Qed.

(** Claim C7 fails on the code in its first half.  For a stored token with
    a refresh token: when the refresh fails, [RefreshToken] reports the
    error and leaves the store exactly as it was, so the same token loads
    again and [IsAuthenticated] still answers true; when [RefreshToken]
    returns a renewed token, that token is the one now in the store. *)
Theorem C7_failed_refresh_keeps_stored_token
        (a : auth.Authenticator) (now : Time) (st : auth.Store)
        (token : oauth2.Token) :
  auth.loadToken a st = Ok token ->
  oauth2.RefreshToken token <> "" ->
  (forall err,
      oauth2.TokenSource_Token (auth.config a) token now = Err err ->
      auth.RefreshToken a now st
      = (st, Err (wrapError "failed to refresh token: " err))
      /\ auth.IsAuthenticated a now st = true)
  /\ (forall st' newToken,
         auth.RefreshToken a now st = (st', Ok newToken) ->
         auth.loadToken a st' = Ok newToken).
Proof.
  intros Hload Hrefresh.
  apply String.eqb_neq in Hrefresh.
  unfold auth.RefreshToken, auth.IsAuthenticated.
  rewrite Hload, Hrefresh. split.
  - intros err Hfail. rewrite Hfail. split; [reflexivity|].
    simpl. apply orb_true_r.
  - intros st' newToken.
    destruct (oauth2.TokenSource_Token (auth.config a) token now)
      as [fresh|err]; [|discriminate].
    destruct (auth.SaveToken a fresh st) as [st1 [err|]] eqn:Hsave;
      [discriminate|].
    intros Hret. inversion Hret; subst.
    apply (SaveToken_then_load a _ st). exact Hsave.
Qed.
End AuthFacts.

(** ** The cache and the token store at concrete inputs *)

(** The evaluated examples read files through the reference codec. *)
#[local] Existing Instance json.parsedCodec.
#[local] Existing Instance json.rawMarshaler.
#[local] Existing Instance os.linux.

(** Claim C5 at a concrete store: two course identifiers stored for ten
    seconds come back re-indented from a lookup five seconds after the
    store, and a lookup eleven seconds after it is a miss. *)
Lemma C5_hit_before_expiry_miss_after :
  let entry := {| cache.Data := indentedIds; cache.CachedAt := 0;
                  cache.ExpiresAt := 10 * time.Second |} in
  let d1 : cache.Dir := <["courses.json" := os.Regular (Ok entry)]> ∅ in
  cache.Set_ exampleCache "courses" compactIds (10 * time.Second) 0 ∅
  = (d1, None)
  /\ cache.Get exampleCache "courses" (5 * time.Second) d1
     = (d1, (Some entry, None))
  /\ snd (cache.Get exampleCache "courses" (11 * time.Second) d1)
     = (None, None).
Proof.
  intros entry d1.
  assert (Hset : cache.Set_ exampleCache "courses" compactIds
                            (10 * time.Second) 0 ∅
                 = (d1, None)) by (vm_compute; reflexivity).
  split; [exact Hset|].
  destruct (C5_entry_served_until_expiry_inclusive _ _ _ _ _ _ _ Hset)
    as (raw & served & Hraw & Hdata & Hat & Hexp & Hhit & Hmiss).
  destruct (Hhit (5 * time.Second) ltac:(vm_compute; discriminate))
    as [Hget _].
  destruct (Hmiss (11 * time.Second) ltac:(vm_compute; reflexivity))
    as (d2 & Hget2 & _).
  split.
  - rewrite Hget. f_equal. f_equal. f_equal.
    destruct served; simpl in *. inversion Hraw. subst. reflexivity.
  - rewrite Hget2. reflexivity.
Defined.

(** Claim C5 as stated fails twice.  At the instant of expiry itself: an
    entry stored at instant 0 for ten seconds is still served by a lookup
    made exactly ten seconds later, is left in the directory, and is still
    counted as valid by the statistics taken at that instant.  And in the
    payload: what a hit returns for the stored array of two identifiers
    is that array re-indented, other bytes than were stored. *)
Lemma C5_lookup_at_expiry_instant_hits :
  (exists d1 : cache.Dir,
      cache.Set_ exampleCache "courses" "[]" (10 * time.Second) 0 ∅
      = (d1, None)
      /\ cache.Get exampleCache "courses" (10 * time.Second) d1
         = (d1, (Some exampleEntry, None))
      /\ cache.ValidEntries
           (cache.GetStats exampleCache (10 * time.Second) d1)
         = 1)
  /\ (exists (d2 : cache.Dir) entry,
         cache.Set_ exampleCache "courses" compactIds (10 * time.Second) 0 ∅
         = (d2, None)
         /\ cache.Get exampleCache "courses" (5 * time.Second) d2
            = (d2, (Some entry, None))
         /\ cache.Data entry = indentedIds
         /\ cache.Data entry <> compactIds).
Proof.
  split.
  - eexists. split; [reflexivity|]. split; vm_compute; reflexivity.
  - eexists. eexists. split; [vm_compute; reflexivity|].
    split; [vm_compute; reflexivity|]. split; [reflexivity|].
    vm_compute. discriminate.
Qed.

(** Claim C10 as stated fails for a key no file name can hold: nothing
    was ever stored under a key of 251 bytes, and its lookup in the empty
    directory is not a miss but an error of the read. *)
Lemma C10_long_key_is_an_error_not_a_miss :
  String.length longKey = 251%nat
  /\ cache.Get exampleCache longKey 0 ∅
     = (∅, (None,
            Some (wrapError "failed to read cache: " os.ENAMETOOLONG))).
Proof. split; vm_compute; reflexivity. Qed.

(** Claim C3 fails on the code: [GenerateKey] joins the parameters in the
    order the [range] over the map happens to visit them, without sorting.
    For the map of the package's own test, two of its visiting orders give
    two different keys. *)
Theorem C3_key_follows_range_order :
  let params : gmap string string :=
    <["courseId" := "123"]> (<["userId" := "456"]> ∅) in
  let visit1 := [("courseId", "123"); ("userId", "456")] in
  let visit2 := [("userId", "456"); ("courseId", "123")] in
  cache.rangeOrder params visit1
  /\ cache.rangeOrder params visit2
  /\ cache.GenerateKey "courses" visit1 = "courses&courseId=123&userId=456"
  /\ cache.GenerateKey "courses" visit2 = "courses&userId=456&courseId=123"
  /\ cache.GenerateKey "courses" visit1 <> cache.GenerateKey "courses" visit2.
Proof.
  intros params visit1 visit2.
  assert (Hperm : map_to_list params ≡ₚ visit1).
  { unfold params, visit1.
    rewrite map_to_list_insert by reflexivity.
    rewrite map_to_list_insert by reflexivity.
    rewrite map_to_list_empty. reflexivity. }
  split; [unfold cache.rangeOrder; symmetry; exact Hperm|].
  split; [unfold cache.rangeOrder; rewrite Hperm; apply Permutation_swap|].
  split; [reflexivity|]. split; [reflexivity|]. discriminate.
Qed.

(** Claim C7 at the failing input: the stored token expired a thousand
    seconds ago and the provider answers the refresh with invalid_grant;
    the token stays in the store and the user still counts as
    authenticated. *)
Lemma C7_stale_token_survives :
  let st : auth.Store := Some (os.Regular (Ok staleToken)) in
  auth.RefreshToken exampleAuthenticator (2000 * time.Second) st
  = (st, Err (wrapError "failed to refresh token: " invalidGrant))
  /\ auth.IsAuthenticated exampleAuthenticator (2000 * time.Second) st
     = true.
Proof.
  intros st.
  apply (C7_failed_refresh_keeps_stored_token
           exampleAuthenticator (2000 * time.Second) st staleToken).
  - reflexivity.
  - discriminate.
  - vm_compute. reflexivity.
Defined.

(** ** The retry loop *)

Lemma retryLoop_step {T} ctx (fn : api.World -> Result T * api.World)
      remaining backoff lastErr w :
  api.retryLoop ctx fn (S remaining) backoff lastErr w
  = if context.Done ctx (api.now w) then (Err (context.Err_ ctx), w)
    else match fn w with
         | (Ok resp, w1) => (Ok resp, w1)
         | (Err err, w1) =>
             if api.isRateLimitError err
             then api.retryLoop ctx fn remaining (backoff * 2) (Some err)
                                (api.Sleep backoff w1)
             else if api.isAPIError err then (Err err, w1)
                  else api.retryLoop ctx fn remaining backoff (Some err) w1
         end.
Proof. reflexivity. Qed.


Section RetryFacts.
Import time.
Context {T : Type}.
Variable ctx : context.Context.
Variable answer : nat -> Result T.
Variable rq : api.Request.

Lemma retryLoop_cancelled remaining backoff lastErr w :
  context.Done ctx (api.now w) = true ->
  api.retryLoop ctx (api.roundTrip answer rq) (S remaining) backoff lastErr w
  = (Err (context.Err_ ctx), w).
Proof. intros Hdone. rewrite retryLoop_step, Hdone. reflexivity. Qed.

(** A rate-limited answer makes the loop sleep for the backoff and go on
    with the backoff doubled. *)
Lemma retryLoop_rate_limited remaining backoff lastErr w err :
  context.Done ctx (api.now w) = false ->
  answer (length (api.requests w)) = Err err ->
  api.isRateLimitError err = true ->
  api.retryLoop ctx (api.roundTrip answer rq) (S remaining) backoff lastErr w
  = api.retryLoop ctx (api.roundTrip answer rq) remaining (backoff * 2)
                  (Some err) (api.Sleep backoff (api.send rq w)).
Proof.
  intros Hlive Hans Hrate. rewrite retryLoop_step, Hlive.
  unfold api.roundTrip at 1. rewrite Hans, Hrate. reflexivity.
Qed.

Lemma retryLoop_success remaining backoff lastErr w resp :
  context.Done ctx (api.now w) = false ->
  answer (length (api.requests w)) = Ok resp ->
  api.retryLoop ctx (api.roundTrip answer rq) (S remaining) backoff lastErr w
  = (Ok resp, api.send rq w).
Proof.
  intros Hlive Hans. rewrite retryLoop_step, Hlive.
  unfold api.roundTrip at 1. rewrite Hans. reflexivity.
Qed.


(** The trace of one run of the loop: the clock never goes back; every
    request it adds was sent while the context was live; every sleep it adds
    was over when the loop returned. *)
Lemma retryLoop_trace remaining :
  forall backoff lastErr w,
    0 < backoff ->
    let w' := snd (api.retryLoop ctx (api.roundTrip answer rq)
                                 remaining backoff lastErr w) in
    api.now w <= api.now w'
    /\ (exists sent,
          api.requests w' = (api.requests w ++ sent)%list
          /\ Forall (fun tr => context.Done ctx (fst tr) = false
                               /\ snd tr = rq) sent)
    /\ (exists slept,
          api.sleeps w' = (api.sleeps w ++ slept)%list
          /\ Forall (fun sd => 0 < snd sd
                               /\ fst sd + snd sd <= api.now w') slept).
Proof.
  induction remaining as [|remaining IH]; intros backoff lastErr w Hpos.
  - simpl. split; [lia|]. split; trace_unchanged.
  - rewrite retryLoop_step.
    destruct (context.Done ctx (api.now w)) eqn:Hlive.
    { simpl. split; [lia|]. split; trace_unchanged. }
    unfold api.roundTrip at 1.
    destruct (answer (length (api.requests w))) as [resp|err].
    { simpl. split; [lia|]. split; [|trace_unchanged].
      exists [(api.now w, rq)]. split; [reflexivity|].
      constructor; [split; [exact Hlive|reflexivity]|constructor]. }
    destruct (api.isRateLimitError err).
    + specialize (IH (backoff * 2) (Some err)
                     (api.Sleep backoff (api.send rq w))
                     ltac:(lia)).
      cbv zeta in IH.
      set (w' := snd (api.retryLoop ctx (api.roundTrip answer rq) remaining
                        (backoff * 2) (Some err)
                        (api.Sleep backoff (api.send rq w)))) in *.
      destruct IH as (Hclock & (sent & Hsent & Hall) & (slept & Hslept & Hs)).
      simpl in Hclock, Hsent, Hslept.
      rewrite Z.max_l in Hclock by lia.
      split; [lia|]. split.
      * exists ((api.now w, rq) :: sent). split.
        -- rewrite Hsent, <- app_assoc. reflexivity.
        -- constructor; [split; [exact Hlive|reflexivity]|exact Hall].
      * exists ((api.now w, backoff) :: slept). split.
        -- rewrite Hslept, <- app_assoc. reflexivity.
        -- constructor; [simpl; lia|exact Hs].
    + destruct (api.isAPIError err).
      { simpl. split; [lia|]. split; [|trace_unchanged].
        exists [(api.now w, rq)]. split; [reflexivity|].
        constructor; [split; [exact Hlive|reflexivity]|constructor]. }
      specialize (IH backoff (Some err) (api.send rq w) Hpos).
      cbv zeta in IH.
      set (w' := snd (api.retryLoop ctx (api.roundTrip answer rq) remaining
                        backoff (Some err) (api.send rq w))) in *.
      destruct IH as (Hclock & (sent & Hsent & Hall) & (slept & Hslept & Hs)).
      simpl in Hclock, Hsent, Hslept.
      split; [lia|]. split.
      * exists ((api.now w, rq) :: sent). split.
        -- rewrite Hsent, <- app_assoc. reflexivity.
        -- constructor; [split; [exact Hlive|reflexivity]|exact Hall].
      * exists slept. split; [exact Hslept|exact Hs].
Qed.

(** Entered with a live context, the loop sends its request at once. *)
Lemma retryLoop_sends_first remaining backoff lastErr w :
  0 < backoff ->
  context.Done ctx (api.now w) = false ->
  exists rest,
    api.requests (snd (api.retryLoop ctx (api.roundTrip answer rq)
                                     (S remaining) backoff lastErr w))
    = (api.requests w ++ (api.now w, rq) :: rest)%list.
Proof.
  intros Hpos Hlive. rewrite retryLoop_step, Hlive.
  unfold api.roundTrip at 1.
  destruct (answer (length (api.requests w))) as [resp|err].
  { exists []. reflexivity. }
  destruct (api.isRateLimitError err).
  - destruct (retryLoop_trace remaining (backoff * 2) (Some err)
                (api.Sleep backoff (api.send rq w)) ltac:(lia))
      as (_ & (sent & Hsent & _) & _).
    exists sent. rewrite Hsent. simpl. rewrite <- app_assoc. reflexivity.
  - destruct (api.isAPIError err).
    { exists []. reflexivity. }
    destruct (retryLoop_trace remaining backoff (Some err)
                (api.send rq w) Hpos)
      as (_ & (sent & Hsent & _) & _).
    exists sent. rewrite Hsent. simpl. rewrite <- app_assoc. reflexivity.
Qed.

(** A success comes from a request sent at the instant the loop returns,
    with the context live at that instant. *)
Lemma retryLoop_ok_live remaining :
  forall backoff lastErr w resp w',
    api.retryLoop ctx (api.roundTrip answer rq) remaining backoff lastErr w
    = (Ok resp, w') ->
    context.Done ctx (api.now w') = false
    /\ exists before,
         api.requests w' = (before ++ [(api.now w', rq)])%list.
Proof.
  induction remaining as [|remaining IH];
    intros backoff lastErr w resp w' Hrun.
  - simpl in Hrun. discriminate.
  - rewrite retryLoop_step in Hrun.
    destruct (context.Done ctx (api.now w)) eqn:Hlive; [discriminate|].
    unfold api.roundTrip at 1 in Hrun.
    destruct (answer (length (api.requests w))) as [resp0|err].
    + inversion Hrun; subst. simpl. split; [exact Hlive|].
      exists (api.requests w). reflexivity.
    + destruct (api.isRateLimitError err); [exact (IH _ _ _ _ _ Hrun)|].
      destruct (api.isAPIError err); [discriminate|].
      exact (IH _ _ _ _ _ Hrun).
Qed.

Lemma executeWithRetry_first_success c w resp :
  context.Done ctx (api.now w) = false ->
  answer (length (api.requests w)) = Ok resp ->
  api.executeWithRetry c ctx (api.roundTrip answer rq) w
  = (Ok resp, api.send rq w).
Proof. intros. unfold api.executeWithRetry. now apply retryLoop_success. Qed.

Lemma executeWithRetry_trace c w :
  let w' := snd (api.executeWithRetry c ctx (api.roundTrip answer rq) w) in
  api.now w <= api.now w'
  /\ (exists sent,
        api.requests w' = (api.requests w ++ sent)%list
        /\ Forall (fun tr => context.Done ctx (fst tr) = false
                             /\ snd tr = rq) sent)
  /\ (exists slept,
        api.sleeps w' = (api.sleeps w ++ slept)%list
        /\ Forall (fun sd => 0 < snd sd
                             /\ fst sd + snd sd <= api.now w') slept).
Proof.
  unfold api.executeWithRetry.
  apply retryLoop_trace. unfold Second. lia.
Qed.

Lemma executeWithRetry_sends_first c w :
  context.Done ctx (api.now w) = false ->
  exists rest,
    api.requests (snd (api.executeWithRetry c ctx (api.roundTrip answer rq) w))
    = (api.requests w ++ (api.now w, rq) :: rest)%list.
Proof.
  intros Hlive. unfold api.executeWithRetry.
  apply retryLoop_sends_first; [unfold Second; lia|exact Hlive].
Qed.
End RetryFacts.

(** Claim C2 fails on the code: the loop never reads the configuration.
    Whatever configuration the client is built with, a remote that answers
    every request with a rate-limiting error is tried exactly three times,
    with sleeps of one, two and four seconds, and the call ends with the
    last error wrapped in "after 3 attempts". *)
Theorem C2_retry_budget_is_fixed
        {T} (cfg : option api.Configuration) (svc : classroom.Service)
        (answer : nat -> Result T) (rq : api.Request) (w : api.World)
        (err : error) :
  (forall n, answer n = Err err) ->
  api.isRateLimitError err = true ->
  api.executeWithRetry (api.NewClient svc cfg) context.Background
                       (api.roundTrip answer rq) w
  = (Err (wrapError "after 3 attempts: " err),
     {| api.now := api.now w + 7 * time.Second;
        api.requests :=
          (api.requests w
           ++ [(api.now w, rq);
               (api.now w + 1 * time.Second, rq);
               (api.now w + 3 * time.Second, rq)])%list;
        api.sleeps :=
          (api.sleeps w
           ++ [(api.now w, 1 * time.Second);
               (api.now w + 1 * time.Second, 2 * time.Second);
               (api.now w + 3 * time.Second, 4 * time.Second)])%list |}).
Proof.
  intros Hans Hrate. unfold api.executeWithRetry.
  do 3 (rewrite retryLoop_step; simpl context.Done; cbv iota;
        unfold api.roundTrip at 1; rewrite Hans, Hrate).
  simpl. unfold api.Sleep, api.send, time.Second; simpl.
  rewrite <- !app_assoc, <- !Z.add_assoc; simpl.
  reflexivity.
Qed.

(** Claim C2 at the failing input: a client configured for five attempts
    with a two-second base delay makes three attempts with a one-second
    base delay, and gives up on a remote that would have answered the
    fourth attempt. *)
Lemma C2_five_attempts_configured_three_made :
  api.executeWithRetry (api.NewClient (svcAlways e429) (Some cfg5))
                       context.Background
                       (api.CoursesGet_Do
                          (api.NewClient (svcAlways e429) (Some cfg5)) "123")
                       w0
  = (Err (wrapError "after 3 attempts: " e429),
     {| api.now := 7000000000;
        api.requests := [(0, api.CoursesGet "123");
                         (1000000000, api.CoursesGet "123");
                         (3000000000, api.CoursesGet "123")];
        api.sleeps := [(0, 1000000000); (1000000000, 2000000000);
                       (3000000000, 4000000000)] |})
  /\ fst (api.GetCourse (api.NewClient (svcRateLimitedFor 3) (Some cfg5))
                        context.Background "123" w0)
     = Err (wrapError "failed to get course 123: "
              (wrapError "after 3 attempts: " e429)).
Proof.
  split; [|vm_compute; reflexivity].
  apply (C2_retry_budget_is_fixed (Some cfg5) (svcAlways e429)
           (fun n => classroom.CoursesGetDo (svcAlways e429) n "123")
           (api.CoursesGet "123") w0 e429).
  - reflexivity.
  - vm_compute. reflexivity.
Defined.

(** Claim C4, as the code has it: the loop polls the context at the start
    of each attempt and nowhere else.  When a poll finds the context done
    the call returns the error of the context, cancellation or deadline,
    at once: so it does when entered with such a context, sending and
    sleeping nothing, and so it does at the poll that follows the first
    or the second backoff.  Every request is sent right after a poll that
    found the context live, and a success is the answer to such a
    request.  But a backoff sleep, once begun, is never cut short: the
    call does not return before the sleep has run its full length,
    whenever the context ends; and no poll follows the third backoff, so
    after three rate-limited answers the call returns, seven seconds
    after its start, the error of the exhausted retries, whatever has
    become of the context. *)
Theorem C4_cancellation_polled_between_attempts
        {T} (c : api.Client) (ctx : context.Context)
        (answer : nat -> Result T) (rq : api.Request) (w : api.World) :
  let run := api.executeWithRetry c ctx (api.roundTrip answer rq) w in
  let n := length (api.requests w) in
  let t0 := api.now w in
  (context.Done ctx t0 = true -> run = (Err (context.Err_ ctx), w))
  /\ (context.Err_ ctx = context.Canceled
      \/ context.Err_ ctx = context.DeadlineExceeded)
  /\ (forall t r,
        In (t, r) (api.requests (snd run)) ->
        In (t, r) (api.requests w) \/ context.Done ctx t = false)
  /\ (forall resp,
        fst run = Ok resp ->
        context.Done ctx (api.now (snd run)) = false
        /\ exists before,
             api.requests (snd run)
             = (before ++ [(api.now (snd run), rq)])%list)
  /\ (forall s d,
        In (s, d) (api.sleeps (snd run)) ->
        In (s, d) (api.sleeps w) \/ s + d <= api.now (snd run))
  /\ (forall e0,
        context.Done ctx t0 = false ->
        answer n = Err e0 -> api.isRateLimitError e0 = true ->
        context.Done ctx (t0 + 1 * time.Second) = true ->
        run = (Err (context.Err_ ctx),
               {| api.now := t0 + 1 * time.Second;
                  api.requests := (api.requests w ++ [(t0, rq)])%list;
                  api.sleeps :=
                    (api.sleeps w ++ [(t0, 1 * time.Second)])%list |}))
  /\ (forall e0 e1,
        context.Done ctx t0 = false ->
        answer n = Err e0 -> api.isRateLimitError e0 = true ->
        context.Done ctx (t0 + 1 * time.Second) = false ->
        answer (S n) = Err e1 -> api.isRateLimitError e1 = true ->
        context.Done ctx (t0 + 3 * time.Second) = true ->
        run = (Err (context.Err_ ctx),
               {| api.now := t0 + 3 * time.Second;
                  api.requests :=
                    (api.requests w
                     ++ [(t0, rq); (t0 + 1 * time.Second, rq)])%list;
                  api.sleeps :=
                    (api.sleeps w
                     ++ [(t0, 1 * time.Second);
                         (t0 + 1 * time.Second, 2 * time.Second)])%list |}))
  /\ (forall e0 e1 e2,
        context.Done ctx t0 = false ->
        answer n = Err e0 -> api.isRateLimitError e0 = true ->
        context.Done ctx (t0 + 1 * time.Second) = false ->
        answer (S n) = Err e1 -> api.isRateLimitError e1 = true ->
        context.Done ctx (t0 + 3 * time.Second) = false ->
        answer (S (S n)) = Err e2 -> api.isRateLimitError e2 = true ->
        run = (Err (wrapError "after 3 attempts: " e2),
               {| api.now := t0 + 7 * time.Second;
                  api.requests :=
                    (api.requests w
                     ++ [(t0, rq); (t0 + 1 * time.Second, rq);
                         (t0 + 3 * time.Second, rq)])%list;
                  api.sleeps :=
                    (api.sleeps w
                     ++ [(t0, 1 * time.Second);
                         (t0 + 1 * time.Second, 2 * time.Second);
                         (t0 + 3 * time.Second, 4 * time.Second)])%list |})).
Proof.
  intros run n t0.
  destruct (executeWithRetry_trace ctx answer rq c w)
    as (_ & (sent & Hsent & Hlive) & (slept & Hslept & Hfull)).
  fold run in Hsent, Hslept, Hfull.
  assert (Hw1 : api.now (api.Sleep time.Second (api.send rq w))
                = t0 + 1 * time.Second
                /\ length (api.requests
                             (api.Sleep time.Second (api.send rq w)))
                   = S n).
  { split; [unfold time.Second; simpl; unfold t0; lia|].
    simpl. rewrite length_app. simpl. unfold n. lia. }
  assert (Hw2 : api.now (api.Sleep (time.Second * 2)
                           (api.send rq (api.Sleep time.Second
                                                   (api.send rq w))))
                = t0 + 3 * time.Second
                /\ length (api.requests
                             (api.Sleep (time.Second * 2)
                                (api.send rq (api.Sleep time.Second
                                                        (api.send rq w)))))
                   = S (S n)).
  { split; [unfold time.Second; simpl; unfold t0; lia|].
    simpl. rewrite !length_app. simpl. unfold n. lia. }
  destruct Hw1 as [Hnow1 Hlen1]. destruct Hw2 as [Hnow2 Hlen2].
  split; [|split; [|split; [|split; [|split; [|split; [|split]]]]]].
  - intros Hdone. unfold run, api.executeWithRetry.
    apply retryLoop_cancelled. exact Hdone.
  - unfold context.Err_. destruct (context.ending ctx); auto.
  - intros t r Hin. rewrite Hsent in Hin.
    apply in_app_or in Hin as [Hin|Hin]; [left; exact Hin|right].
    rewrite Forall_forall in Hlive. apply list_elem_of_In in Hin.
    apply (Hlive _ Hin).
  - intros resp Hok.
    apply (retryLoop_ok_live ctx answer rq 3 time.Second None w resp).
    unfold run, api.executeWithRetry in *.
    destruct (api.retryLoop ctx (api.roundTrip answer rq) 3 time.Second
                            None w) as [res w'].
    simpl in Hok. subst res. reflexivity.
  - intros s d Hin. rewrite Hslept in Hin.
    apply in_app_or in Hin as [Hin|Hin]; [left; exact Hin|right].
    rewrite Forall_forall in Hfull. apply list_elem_of_In in Hin.
    apply (Hfull _ Hin).
  - intros e0 L0 A0 R0 D1. unfold run, api.executeWithRetry.
    rewrite (retryLoop_rate_limited _ _ _ _ _ _ _ e0 L0 A0 R0).
    rewrite retryLoop_cancelled by (rewrite Hnow1; exact D1).
    unfold api.Sleep, api.send, time.Second, t0; simpl. reflexivity.
  - intros e0 e1 L0 A0 R0 L1 A1 R1 D2. unfold run, api.executeWithRetry.
    rewrite (retryLoop_rate_limited _ _ _ _ _ _ _ e0 L0 A0 R0).
    rewrite (retryLoop_rate_limited _ _ _ _ _ _ _ e1);
      [|rewrite Hnow1; exact L1|rewrite Hlen1; exact A1|exact R1].
    rewrite retryLoop_cancelled by (rewrite Hnow2; exact D2).
    unfold api.Sleep, api.send, time.Second, t0; simpl.
    rewrite <- !app_assoc, <- !Z.add_assoc; simpl. reflexivity.
  - intros e0 e1 e2 L0 A0 R0 L1 A1 R1 L2 A2 R2.
    unfold run, api.executeWithRetry.
    rewrite (retryLoop_rate_limited _ _ _ _ _ _ _ e0 L0 A0 R0).
    rewrite (retryLoop_rate_limited _ _ _ _ _ _ _ e1);
      [|rewrite Hnow1; exact L1|rewrite Hlen1; exact A1|exact R1].
    rewrite (retryLoop_rate_limited _ _ _ _ _ _ _ e2);
      [|rewrite Hnow2; exact L2|rewrite Hlen2; exact A2|exact R2].
    unfold api.Sleep, api.send, time.Second, t0; simpl.
    rewrite <- !app_assoc, <- !Z.add_assoc; simpl. reflexivity.
Qed.

(** Claim C4 as stated fails: against a rate-limited remote, a context
    cancelled half a second into the first one-second backoff makes the
    call return only when that second is over, and so does a context
    whose deadline passes then, with the deadline error; a context
    cancelled during the last backoff makes the call return, after the
    full four seconds, the exhausted-retries error and no cancellation
    error; and a poll made at the very instant of the cancellation may
    still find the context live, and then a request is sent at that
    instant. *)
Lemma C4_sleep_outlasts_cancellation :
  let c := api.NewClient (svcAlways e429) None in
  api.executeWithRetry c (context.WithCancel 500000000 true)
                       (api.CoursesGet_Do c "123") w0
  = (Err context.Canceled,
     {| api.now := 1000000000;
        api.requests := [(0, api.CoursesGet "123")];
        api.sleeps := [(0, 1000000000)] |})
  /\ api.executeWithRetry c (context.WithTimeout 0 500000000 true)
                          (api.CoursesGet_Do c "123") w0
     = (Err context.DeadlineExceeded,
        {| api.now := 1000000000;
           api.requests := [(0, api.CoursesGet "123")];
           api.sleeps := [(0, 1000000000)] |})
  /\ api.executeWithRetry c (context.WithCancel 5000000000 true)
                          (api.CoursesGet_Do c "123") w0
     = (Err (wrapError "after 3 attempts: " e429),
        {| api.now := 7000000000;
           api.requests := [(0, api.CoursesGet "123");
                            (1000000000, api.CoursesGet "123");
                            (3000000000, api.CoursesGet "123")];
           api.sleeps := [(0, 1000000000); (1000000000, 2000000000);
                          (3000000000, 4000000000)] |})
  /\ api.executeWithRetry c (context.WithCancel 1000000000 false)
                          (api.CoursesGet_Do c "123") w0
     = (Err context.Canceled,
        {| api.now := 3000000000;
           api.requests := [(0, api.CoursesGet "123");
                            (1000000000, api.CoursesGet "123")];
           api.sleeps := [(0, 1000000000); (1000000000, 2000000000)] |}).
Proof. repeat split; vm_compute; reflexivity. Qed.




(** ** Pagination *)

Lemma listCoursesLoop_step fuel c ctx courses pageToken w :
  api.listCoursesLoop (S fuel) c ctx courses pageToken w
  = match api.executeWithRetry c ctx
            (api.CoursesList_Do c (api.sentToken pageToken)) w with
    | (Err err, w1) =>
        (Some (Err (wrapError "failed to list courses: " err)), w1)
    | (Ok resp, w1) =>
        if String.eqb (classroom.NextPageToken resp) ""
        then (Some (Ok (courses ++ map api.convertCourse
                                       (classroom.Courses resp))%list), w1)
        else api.listCoursesLoop fuel c ctx
               (courses ++ map api.convertCourse (classroom.Courses resp))%list
               (classroom.NextPageToken resp) w1
    end.
Proof. reflexivity. Qed.

Lemma sentToken_nonempty tok : tok <> "" -> api.sentToken tok = Some tok.
Proof.
  intros Hne. unfold api.sentToken.
  destruct (String.eqb_spec tok ""); [contradiction|reflexivity].
Qed.

(** The loop entered with the records gathered so far and the token of
    the page to fetch next, against a remote that serves the pages
    [pre ++ [last]] to the requests the loop sends. *)
Lemma listCoursesLoop_pages c ctx :
  forall pre last fuel courses pageToken w,
    context.Done ctx (api.now w) = false ->
    Forall (fun p => classroom.NextPageToken p <> "") pre ->
    classroom.NextPageToken last = "" ->
    (forall k page tok,
        (pre ++ [last])%list !! k = Some page ->
        (api.sentToken pageToken
           :: map (fun p => Some (classroom.NextPageToken p)) pre) !! k
        = Some tok ->
        classroom.CoursesListDo (api.service c)
                                (length (api.requests w) + k)%nat tok
        = Ok page) ->
    (length pre < fuel)%nat ->
    api.listCoursesLoop fuel c ctx courses pageToken w
    = (Some (Ok (courses
                 ++ concat (map (fun p => map api.convertCourse
                                              (classroom.Courses p))
                                (pre ++ [last])))%list),
       {| api.now := api.now w;
          api.requests :=
            (api.requests w
             ++ map (fun tok => (api.now w, api.CoursesList tok))
                    (api.sentToken pageToken
                       :: map (fun p => Some (classroom.NextPageToken p))
                              pre))%list;
          api.sleeps := api.sleeps w |}).
Proof.
  induction pre as [|page pre IH];
    intros last fuel courses pageToken w Hlive Hmore Hlast Hserve Hfuel.
  - destruct fuel as [|fuel]; [simpl in Hfuel; lia|].
    rewrite listCoursesLoop_step. unfold api.CoursesList_Do.
    rewrite (executeWithRetry_first_success ctx _ _ c w last Hlive).
    + rewrite Hlast. simpl. rewrite app_nil_r. reflexivity.
    + specialize (Hserve 0%nat last (api.sentToken pageToken)
                         eq_refl eq_refl).
      rewrite Nat.add_0_r in Hserve. exact Hserve.
  - destruct fuel as [|fuel]; [simpl in Hfuel; lia|].
    inversion Hmore as [|? ? Hpage Hmore']; subst.
    rewrite listCoursesLoop_step. unfold api.CoursesList_Do.
    rewrite (executeWithRetry_first_success ctx _ _ c w page Hlive).
    + destruct (String.eqb_spec (classroom.NextPageToken page) "")
        as [Heq|_]; [contradiction|].
      rewrite (IH last fuel); try assumption.
      * simpl. rewrite <- !app_assoc.
        rewrite (sentToken_nonempty _ Hpage). reflexivity.
      * intros k page' tok Hk Htok. simpl.
        rewrite length_app. simpl.
        replace (length (api.requests w) + 1 + k)%nat
          with (length (api.requests w) + S k)%nat by lia.
        apply Hserve; [exact Hk|].
        simpl. rewrite (sentToken_nonempty _ Hpage) in Htok. exact Htok.
      * simpl in Hfuel. lia.
    + specialize (Hserve 0%nat page (api.sentToken pageToken)
                         eq_refl eq_refl).
      rewrite Nat.add_0_r in Hserve. exact Hserve.
Qed.

(** Claim C8: let the remote hold the pages [pre ++ [last]], every page of
    [pre] coming with a continuation token and [last] with none, and let it
    serve the k-th of them to the k-th request when that request carries
    the token of the page before (none for the first).  Then [ListCourses]
    sends exactly these requests, in this order, stops after [last], and
    returns the records of all the pages, converted, in page order. *)
Theorem C8_pagination_merges_pages_in_order
        (c : api.Client) (ctx : context.Context)
        (pre : list classroom.ListCoursesResponse)
        (last : classroom.ListCoursesResponse)
        (w : api.World) (fuel : nat) :
  context.Done ctx (api.now w) = false ->
  Forall (fun p => classroom.NextPageToken p <> "") pre ->
  classroom.NextPageToken last = "" ->
  (forall k page tok,
      (pre ++ [last])%list !! k = Some page ->
      (None :: map (fun p => Some (classroom.NextPageToken p)) pre) !! k
      = Some tok ->
      classroom.CoursesListDo (api.service c)
                              (length (api.requests w) + k)%nat tok
      = Ok page) ->
  (length pre < fuel)%nat ->
  api.ListCourses fuel c ctx w
  = (Some (Ok (concat (map (fun p => map api.convertCourse
                                         (classroom.Courses p))
                           (pre ++ [last])))),
     {| api.now := api.now w;
        api.requests :=
          (api.requests w
           ++ map (fun tok => (api.now w, api.CoursesList tok))
                  (None :: map (fun p => Some (classroom.NextPageToken p))
                               pre))%list;
        api.sleeps := api.sleeps w |}).
Proof.
  intros Hlive Hmore Hlast Hserve Hfuel. unfold api.ListCourses.
  rewrite (listCoursesLoop_pages c ctx pre last); auto.
Qed.

(** Claim C8 on three pages of sizes 2, 2 and 1: three requests, the
    second and third carrying the tokens of the pages before them, and one
    list of the five courses in page order. *)
Lemma C8_three_pages_five_courses :
  api.ListCourses 3 (api.NewClient svcPaged None) context.Background w0
  = (Some (Ok (map api.convertCourse
                   [mkCourse "1" "Algebra"; mkCourse "2" "Biology";
                    mkCourse "3" "Chemistry"; mkCourse "4" "Drama";
                    mkCourse "5" "English"])),
     {| api.now := 0;
        api.requests := [(0, api.CoursesList None);
                         (0, api.CoursesList (Some "t1"));
                         (0, api.CoursesList (Some "t2"))];
        api.sleeps := [] |}).
Proof.
  apply (C8_pagination_merges_pages_in_order
           (api.NewClient svcPaged None) context.Background
           [page1; page2] page3 w0 3).
  - reflexivity.
  - repeat constructor; discriminate.
  - reflexivity.
  - intros [|[|[|k]]] page tok Hpage Htok; simpl in *;
      inversion Hpage; inversion Htok; subst; try reflexivity.
  - simpl. lia.
Defined.

(** ** The client and the cache *)

(** [ListCourses] only ever adds to the requests sent. *)
Lemma listCoursesLoop_requests_grow c ctx fuel :
  forall courses pageToken w,
  exists sent,
    api.requests (snd (api.listCoursesLoop fuel c ctx courses pageToken w))
    = (api.requests w ++ sent)%list.
Proof.
  induction fuel as [|fuel IH]; intros courses pageToken w.
  - exists []. simpl. rewrite app_nil_r. reflexivity.
  - rewrite listCoursesLoop_step. unfold api.CoursesList_Do.
    destruct (executeWithRetry_trace ctx
                (fun n => classroom.CoursesListDo (api.service c) n
                                                  (api.sentToken pageToken))
                (api.CoursesList (api.sentToken pageToken)) c w)
      as (_ & (sent & Hsent & _) & _).
    destruct (api.executeWithRetry c ctx _ w) as [[resp|err] w1];
      simpl in Hsent.
    + destruct (String.eqb (classroom.NextPageToken resp) "").
      * exists sent. exact Hsent.
      * destruct (IH (courses ++ map api.convertCourse
                                       (classroom.Courses resp))%list
                     (classroom.NextPageToken resp) w1) as (more & Hmore).
        exists (sent ++ more)%list.
        rewrite Hmore, Hsent, app_assoc. reflexivity.
    + exists sent. exact Hsent.
Qed.

(** Claim C1, as the code has it: the client holds no cache and computes
    no fingerprint.  Every [ListCourses] and every [GetCourse] entered with
    a live context begins by sending its request to the remote service. *)
Theorem C1_every_call_goes_to_the_remote
        (c : api.Client) (ctx : context.Context) (w : api.World)
        (fuel : nat) (courseID : string) :
  context.Done ctx (api.now w) = false ->
  (exists rest,
      api.requests (snd (api.ListCourses (S fuel) c ctx w))
      = (api.requests w ++ (api.now w, api.CoursesList None) :: rest)%list)
  /\ (exists rest,
         api.requests (snd (api.GetCourse c ctx courseID w))
         = (api.requests w
            ++ (api.now w, api.CoursesGet courseID) :: rest)%list).
Proof.
  intros Hlive. split.
  - unfold api.ListCourses. rewrite listCoursesLoop_step.
    unfold api.CoursesList_Do.
    destruct (executeWithRetry_sends_first ctx
                (fun n => classroom.CoursesListDo (api.service c) n
                                                  (api.sentToken ""))
                (api.CoursesList (api.sentToken "")) c w Hlive)
      as (rest & Hrest).
    destruct (api.executeWithRetry c ctx _ w) as [[resp|err] w1];
      simpl in Hrest.
    + destruct (String.eqb (classroom.NextPageToken resp) "").
      * exists rest. exact Hrest.
      * destruct (listCoursesLoop_requests_grow c ctx fuel
                    ([] ++ map api.convertCourse (classroom.Courses resp))%list
                    (classroom.NextPageToken resp) w1) as (more & Hmore).
        exists (rest ++ more)%list.
        rewrite Hmore, Hrest, <- app_assoc. reflexivity.
    + exists rest. exact Hrest.
  - unfold api.GetCourse, api.CoursesGet_Do.
    destruct (executeWithRetry_sends_first ctx
                (fun n => classroom.CoursesGetDo (api.service c) n courseID)
                (api.CoursesGet courseID) c w Hlive) as (rest & Hrest).
    destruct (api.executeWithRetry c ctx _ w) as [[resp|err] w1];
      exists rest; exact Hrest.
Qed.

(** Claim C1 at a concrete call: listing the courses of the paged remote
    begins with a request for the first page. *)
Lemma C1_listing_begins_with_a_request :
  exists rest,
    api.requests (snd (api.ListCourses 3 (api.NewClient svcPaged None)
                                       context.Background w0))
    = (0, api.CoursesList None) :: rest.
Proof.
  destruct (C1_every_call_goes_to_the_remote
              (api.NewClient svcPaged None) context.Background w0 2 "123"
              eq_refl) as [Hlist _].
  exact Hlist.
Defined.

(** Claim C1 as stated fails: with a fresh entry for the course list in
    the cache (a lookup of its key is a hit), [ListCourses] still sends
    its requests to the remote service and returns what the remote says,
    five courses, not the cached empty list. *)
Lemma C1_cached_courses_are_fetched_again :
  let d : cache.Dir := <["courses.json" := os.Regular (Ok exampleEntry)]> ∅ in
  cache.Get exampleCache (cache.GenerateKey "courses" []) 0 d
  = (d, (Some exampleEntry, None))
  /\ api.ListCourses 3 (api.NewClient svcPaged None) context.Background w0
     = (Some (Ok (map api.convertCourse
                      [mkCourse "1" "Algebra"; mkCourse "2" "Biology";
                       mkCourse "3" "Chemistry"; mkCourse "4" "Drama";
                       mkCourse "5" "English"])),
        {| api.now := 0;
           api.requests := [(0, api.CoursesList None);
                            (0, api.CoursesList (Some "t1"));
                            (0, api.CoursesList (Some "t2"))];
           api.sleeps := [] |}).
Proof. split; vm_compute; reflexivity. Qed.

(** * Further properties of the three packages *)

(** ** Strings *)

Lemma HasPrefix_empty s : gostrings.HasPrefix s "" = true.
Proof. destruct s; reflexivity. Qed.

Lemma append_assoc (s t u : string) : (s +:+ t) +:+ u = s +:+ (t +:+ u).
Proof.
  induction s as [|c s IH]; [reflexivity|].
  change (String c ((s +:+ t) +:+ u) = String c (s +:+ (t +:+ u))).
  f_equal. exact IH.
Qed.

Lemma append_empty_inv (s t : string) : s +:+ t = "" -> s = "" /\ t = "".
Proof. destruct s; [auto|discriminate]. Qed.

Lemma Contains_append_r s t sub :
  gostrings.Contains t sub = true -> gostrings.Contains (s +:+ t) sub = true.
Proof.
  intros Ht. induction s as [|c s IH]; [exact Ht|].
  change (String c s +:+ t) with (String c (s +:+ t)).
  cbn [gostrings.Contains]. rewrite IH. apply orb_true_r.
Qed.

Lemma Contains_char_cons s c x :
  gostrings.Contains (String c s) (String x EmptyString)
  = Ascii.eqb c x || gostrings.Contains s (String x EmptyString).
Proof.
  cbn [gostrings.Contains gostrings.HasPrefix].
  rewrite HasPrefix_empty, andb_true_r. reflexivity.
Qed.

Lemma Contains_char_single c x :
  gostrings.Contains (String c EmptyString) (String x EmptyString)
  = Ascii.eqb c x.
Proof. rewrite Contains_char_cons. cbn. apply orb_false_r. Qed.

Lemma Contains_char_app s t x :
  gostrings.Contains (s +:+ t) (String x EmptyString)
  = gostrings.Contains s (String x EmptyString)
    || gostrings.Contains t (String x EmptyString).
Proof.
  induction s as [|c s IH].
  - reflexivity.
  - change (String c s +:+ t) with (String c (s +:+ t)).
    rewrite !Contains_char_cons, IH, orb_assoc. reflexivity.
Qed.

(** [ReplaceAll] with an underscore, one character at a time. *)
Lemma ReplaceAll_cons c s old :
  gostrings.ReplaceAll (String c s) old "_"
  = String (if Ascii.eqb c old then "_"%char else c)
           (gostrings.ReplaceAll s old "_").
Proof. cbn [gostrings.ReplaceAll]. destruct (Ascii.eqb c old); reflexivity. Qed.

(** Replacing a character by an underscore removes it and brings in no
    character other than the underscore. *)
Lemma ReplaceAll_char s old x :
  x <> "_"%char ->
  gostrings.Contains (gostrings.ReplaceAll s old "_") (String x EmptyString)
  = negb (Ascii.eqb x old)
    && gostrings.Contains s (String x EmptyString).
Proof.
  intros Hx. induction s as [|c s IH].
  - cbn. rewrite andb_false_r. reflexivity.
  - rewrite ReplaceAll_cons, !Contains_char_cons, IH.
    destruct (Ascii.eqb_spec c old) as [->|Hc].
    + destruct (Ascii.eqb_spec "_"%char x) as [Heq|_]; [congruence|].
      rewrite (Ascii.eqb_sym old x).
      destruct (Ascii.eqb x old); reflexivity.
    + destruct (Ascii.eqb_spec c x) as [->|Hcx]; [|reflexivity].
      destruct (Ascii.eqb_spec x old); [congruence|reflexivity].
Qed.

Lemma ReplaceAll_twice s old1 old2 :
  gostrings.ReplaceAll (gostrings.ReplaceAll s old1 "_") old2 "_"
  = gostrings.ReplaceAll (gostrings.ReplaceAll s old2 "_") old1 "_".
Proof.
  induction s as [|c s IH]; [reflexivity|].
  rewrite !ReplaceAll_cons, IH. f_equal.
  destruct (Ascii.eqb c old1) eqn:E1, (Ascii.eqb c old2) eqn:E2;
    rewrite ?E1, ?E2;
    repeat match goal with
           | |- context [Ascii.eqb ?a ?b] => destruct (Ascii.eqb a b)
           end; reflexivity.
Qed.

Lemma ReplaceAll_idem s old :
  gostrings.ReplaceAll (gostrings.ReplaceAll s old "_") old "_"
  = gostrings.ReplaceAll s old "_".
Proof.
  induction s as [|c s IH]; [reflexivity|].
  rewrite !ReplaceAll_cons, IH. f_equal.
  destruct (Ascii.eqb c old) eqn:E; rewrite ?E; [|reflexivity].
  destruct (Ascii.eqb "_" old); reflexivity.
Qed.

(** ** Cache keys and file names *)

(** Property X1: the file name [getPath] gives a key contains no slash,
    no colon and no space, whatever the key: every cache file lies
    directly in the cache directory. *)
Theorem getPath_has_no_separator (c : cache.Cache) (key : string) :
  gostrings.Contains (cache.getPath c key) "/" = false
  /\ gostrings.Contains (cache.getPath c key) ":" = false
  /\ gostrings.Contains (cache.getPath c key) " " = false.
Proof.
  unfold cache.getPath.
  repeat split; rewrite Contains_char_app, !ReplaceAll_char by discriminate;
    cbn; rewrite ?andb_false_r; reflexivity.
Qed.

(** Property X2: [getPath] does not tell a key from the same key with its
    slashes, its colons or its spaces already turned into underscores: the
    two keys name one file. *)
Theorem getPath_sanitised_key_collides (c : cache.Cache) (key : string) :
  cache.getPath c (gostrings.ReplaceAll key "/" "_") = cache.getPath c key
  /\ cache.getPath c (gostrings.ReplaceAll key ":" "_") = cache.getPath c key
  /\ cache.getPath c (gostrings.ReplaceAll key " " "_") = cache.getPath c key.
Proof.
  unfold cache.getPath. repeat split; f_equal.
  - rewrite ReplaceAll_idem. reflexivity.
  - rewrite (ReplaceAll_twice key ":" "/"), ReplaceAll_idem. reflexivity.
  - rewrite (ReplaceAll_twice key " " "/").
    rewrite (ReplaceAll_twice (gostrings.ReplaceAll key "/" "_") " " ":").
    rewrite ReplaceAll_idem. reflexivity.
Qed.

Lemma GenerateKey_fold visit : forall parts,
  fold_left (fun parts (kv : string * string) =>
               (parts ++ [fst kv +:+ "=" +:+ snd kv])%list) visit parts
  = (parts ++ map (fun kv => fst kv +:+ "=" +:+ snd kv) visit)%list.
Proof.
  induction visit as [|kv visit IH]; intros parts; simpl.
  - rewrite app_nil_r. reflexivity.
  - rewrite IH, <- app_assoc. reflexivity.
Qed.

(** Property X3: [GenerateKey] is not injective.  A parameter can be moved
    into the endpoint: the endpoint [e&k=v] with the parameters [visit]
    gets the key of the endpoint [e] with the parameter [k=v] visited
    before [visit]. *)
Theorem GenerateKey_is_not_injective
        (endpoint key value : string) (visit : list (string * string)) :
  cache.GenerateKey (endpoint +:+ "&" +:+ key +:+ "=" +:+ value) visit
  = cache.GenerateKey endpoint ((key, value) :: visit).
Proof.
  unfold cache.GenerateKey. rewrite !GenerateKey_fold. simpl.
  destruct (map (fun kv : string * string => fst kv +:+ "=" +:+ snd kv) visit)
    as [|p rest]; simpl.
  - reflexivity.
  - rewrite !append_assoc. reflexivity.
Qed.

(** Property X5: the key is the empty string only for the empty endpoint
    without parameters. *)
Theorem GenerateKey_empty_only_for_nothing
        (endpoint : string) (visit : list (string * string)) :
  cache.GenerateKey endpoint visit = "" <-> endpoint = "" /\ visit = [].
Proof.
  unfold cache.GenerateKey. rewrite GenerateKey_fold. simpl.
  destruct visit as [|kv visit]; simpl.
  - split; [auto|]. intros [H _]. exact H.
  - split.
    + intros H. apply append_empty_inv in H as [_ H]. discriminate.
    + intros [_ H]. discriminate.
Qed.

(** ** The cache directory under [Set], [Get], [Delete] and [Clear] *)
Section CacheMore.
Import time.
Context {codec : json.Codec cache.CacheEntry cache.readBack} {env : os.Env}.

(** Property X6: two keys with one file name share one entry.  What a
    successful [Set] stored under [key] is served by [Get] under every
    key [key'] that [getPath] sends to the same file, until it expires:
    the payload as [json.MarshalIndent] re-indented it, with the instant
    of the store. *)
Theorem keys_with_one_path_share_an_entry
        {V} {m : json.Marshaler V} (c : cache.Cache) (key key' : string)
        (value : V) (ttl : Duration) (t0 now : Time) (d d' : cache.Dir) :
  cache.getPath c key' = cache.getPath c key ->
  cache.Set_ c key value ttl t0 d = (d', None) ->
  now <= t0 + ttl ->
  exists raw entry,
    json.Marshal value = Ok raw
    /\ cache.Data entry = json.Indent 1 raw
    /\ cache.CachedAt entry = t0
    /\ cache.Get c key' now d' = (d', (Some entry, None)).
Proof.
  intros Hpath Hset Hnow.
  apply Set_success in Hset
    as (_ & Hname & _ & raw & bytes & Hraw & Hbytes & ->).
  exists raw, (cache.readBack {| cache.Data := raw; cache.CachedAt := t0;
                                 cache.ExpiresAt := t0 + ttl |}).
  split; [exact Hraw|]. split; [reflexivity|]. split; [reflexivity|].
  rewrite <- Hpath in Hname |- *.
  rewrite (Get_after_write c key' now d _ bytes Hname Hbytes).
  unfold After; simpl.
  destruct (Z.ltb_spec (t0 + ttl) now); [lia|reflexivity].
Qed.

(** Property X7: [Set] touches the file of its key and no other,
    whatever its outcome; and it succeeds only if the cache directory
    could be made, the payload and the entry marshalled, the name of the
    file was accepted and the file was not an entry that cannot be
    written; the directory then holds the marshalled entry under that
    name. *)
Theorem Set_touches_one_file
        {V} {m : json.Marshaler V} (c : cache.Cache) (key : string)
        (value : V) (ttl : Duration) (t0 : Time) (d : cache.Dir) :
  let d' := fst (cache.Set_ c key value ttl t0 d) in
  (forall path, path <> cache.getPath c key -> d' !! path = d !! path)
  /\ (snd (cache.Set_ c key value ttl t0 d) = None ->
      os.MkdirAll (cache.directory c) = None
      /\ os.nameError (cache.getPath c key) = None
      /\ (forall cause,
            d !! cache.getPath c key <> Some (os.Unreadable cause)
            /\ d !! cache.getPath c key <> Some (os.SubDir cause))
      /\ exists raw bytes,
           json.Marshal value = Ok raw
           /\ json.MarshalIndent
                {| cache.Data := raw; cache.CachedAt := t0;
                   cache.ExpiresAt := t0 + ttl |} = Ok bytes
           /\ d' !! cache.getPath c key = Some (os.Regular bytes)).
Proof.
  intros d'. split.
  - intros path Hne. unfold d', cache.Set_, os.WriteFile.
    destruct (os.MkdirAll _); [reflexivity|].
    destruct (json.Marshal value) as [raw|merr]; [|reflexivity].
    destruct (json.MarshalIndent _) as [bytes|err]; [|reflexivity].
    destruct (os.nameError _); [reflexivity|].
    destruct (d !! cache.getPath c key) as [[data|cause|cause]|];
      simpl; rewrite ?lookup_insert_ne by congruence; reflexivity.
  - intros Hok.
    destruct (cache.Set_ c key value ttl t0 d) as [d1 res] eqn:Hset.
    simpl in Hok. subst res.
    destruct (Set_success _ _ _ _ _ _ _ Hset)
      as (Hdir & Hname & Hnode & raw & bytes & Hraw & Hbytes & Hd1).
    split; [exact Hdir|]. split; [exact Hname|]. split; [exact Hnode|].
    exists raw, bytes. split; [exact Hraw|]. split; [exact Hbytes|].
    unfold d'. simpl. rewrite Hd1. apply lookup_insert_eq.
Qed.

(** Property X8: [Get] leaves every file but the one of its key alone;
    that file it leaves as it is or removes; and a hit changes nothing in
    the directory. *)
Theorem Get_touches_one_file
        (c : cache.Cache) (key : string) (now : Time) (d : cache.Dir) :
  let d' := fst (cache.Get c key now d) in
  (forall path, path <> cache.getPath c key -> d' !! path = d !! path)
  /\ (d' !! cache.getPath c key = d !! cache.getPath c key
      \/ d' !! cache.getPath c key = None)
  /\ (forall entry, fst (snd (cache.Get c key now d)) = Some entry -> d' = d).
Proof.
  destruct (Get_cases c key now d)
    as [(cause & Hname & Hget)
       |(Hname & [(Hfile & Hget)
                 |[(cause & Hfile & Hget)
                  |[(data & cause & Hfile & Hparse & Hget)
                   |(data & entry & Hfile & Hparse & Hget)]]])];
    rewrite Hget; clear Hget; simpl; try (split; [|split]; auto; discriminate).
  destruct (After now (cache.ExpiresAt entry)); simpl.
  - split; [|split].
    + intros path Hne. apply lookup_delete_ne. congruence.
    + right. apply lookup_delete_eq.
    + discriminate.
  - split; [|split]; auto.
Qed.

(** A lookup of a key whose file name is accepted and whose file is not
    there is a miss. *)
Lemma Get_not_exist c key now (d : cache.Dir) :
  os.nameError (cache.getPath c key) = None ->
  d !! cache.getPath c key = None ->
  cache.Get c key now d = (d, (None, None)).
Proof.
  intros Hname Hfile. unfold cache.Get, os.ReadFile.
  rewrite Hname, Hfile. reflexivity.
Qed.

(** Property X9: a miss is stable.  After a [Get] that reported a miss
    (no entry, no error), every later [Get] of the key on the directory
    it left reports a miss again and leaves the directory as it is. *)
Theorem miss_is_stable
        (c : cache.Cache) (key : string) (now later : Time) (d : cache.Dir) :
  now <= later ->
  snd (cache.Get c key now d) = (None, None) ->
  cache.Get c key later (fst (cache.Get c key now d))
  = (fst (cache.Get c key now d), (None, None)).
Proof.
  intros Hlater.
  destruct (Get_cases c key now d)
    as [(cause & Hname & Hget)
       |(Hname & [(Hfile & Hget)
                 |[(cause & Hfile & Hget)
                  |[(data & cause & Hfile & Hparse & Hget)
                   |(data & entry & Hfile & Hparse & Hget)]]])];
    rewrite Hget; clear Hget; simpl; try discriminate.
  - intros _. apply Get_not_exist; assumption.
  - destruct (After now (cache.ExpiresAt entry)) eqn:Hexp; simpl;
      [|discriminate].
    intros _. apply Get_not_exist; [exact Hname|apply lookup_delete_eq].
Qed.

(** Property X10: after a [Delete] that reported no error the key is a
    miss, whatever was stored under it, readable or not; deleting again
    changes nothing; deleting an absent key changes nothing; and no other
    file is touched. *)
Theorem Delete_then_miss
        (c : cache.Cache) (key : string) (now : Time) (d : cache.Dir) :
  let d' := fst (cache.Delete c key d) in
  (snd (cache.Delete c key d) = None ->
   cache.Get c key now d' = (d', (None, None)))
  /\ fst (cache.Delete c key d') = d'
  /\ (d !! cache.getPath c key = None -> d' = d)
  /\ (forall path, path <> cache.getPath c key -> d' !! path = d !! path).
Proof.
  unfold cache.Delete, os.Remove.
  destruct (os.nameError (cache.getPath c key)) as [cause|] eqn:Hname; simpl.
  { split; [discriminate|]. auto. }
  destruct (d !! cache.getPath c key) as [node|] eqn:Hfile; simpl.
  - split; [|split; [|split]].
    + intros _. apply Get_not_exist; [exact Hname|apply lookup_delete_eq].
    + rewrite lookup_delete_eq. reflexivity.
    + discriminate.
    + intros path Hne. apply lookup_delete_ne. congruence.
  - split; [|split; [|split]].
    + intros _. apply Get_not_exist; assumption.
    + rewrite Hfile. reflexivity.
    + reflexivity.
    + reflexivity.
Qed.

(** What the loop of [Clear] leaves at a path. *)
Lemma Clear_lookup (acc d : cache.Dir) path :
  map_fold (fun name entry (dir : cache.Dir) =>
              if os.IsDir entry then dir else delete name dir) acc d
  !! path
  = match d !! path with
    | Some entry => if os.IsDir entry then acc !! path else None
    | None => acc !! path
    end.
Proof.
  revert path.
  apply (map_fold_weak_ind
           (fun (r : cache.Dir) (m : cache.Dir) =>
              forall path,
                r !! path
                = match m !! path with
                  | Some entry => if os.IsDir entry then acc !! path else None
                  | None => acc !! path
                  end)).
  - intros path. rewrite lookup_empty. reflexivity.
  - intros i x m r Hfresh IH path.
    destruct (decide (path = i)) as [->|Hne].
    + rewrite lookup_insert_eq.
      destruct (os.IsDir x).
      * rewrite IH, Hfresh. reflexivity.
      * apply lookup_delete_eq.
    + rewrite lookup_insert_ne by congruence.
      destruct (os.IsDir x).
      * apply IH.
      * rewrite lookup_delete_ne by congruence. apply IH.
Qed.

Lemma GetStats_only_dirs c now (d : cache.Dir) :
  (forall path entry, d !! path = Some entry -> os.IsDir entry = true) ->
  cache.GetStats c now d
  = {| cache.TotalEntries := 0; cache.ValidEntries := 0;
       cache.ExpiredEntries := 0; cache.TotalSize := 0 |}.
Proof.
  induction d as [|i x m Hfresh IH] using map_ind; intros Hdirs.
  - unfold cache.GetStats. apply map_fold_empty.
  - rewrite GetStats_insert_fresh by exact Hfresh.
    rewrite IH.
    + unfold cache.statsEntry.
      rewrite (Hdirs i x) by apply lookup_insert_eq. reflexivity.
    + intros path entry Hin. apply (Hdirs path).
      rewrite lookup_insert_ne; [exact Hin|]. congruence.
Qed.

(** Property X11: [Clear] keeps exactly the subdirectories of the cache
    directory.  Afterwards no key has an entry, and the statistics are
    all zero. *)
Theorem Clear_empties_the_cache
        (c : cache.Cache) (now : Time) (d : cache.Dir) :
  let d' := fst (cache.Clear c d) in
  (forall path entry,
      d' !! path = Some entry <->
      d !! path = Some entry /\ os.IsDir entry = true)
  /\ (forall key, fst (snd (cache.Get c key now d')) = None)
  /\ cache.GetStats c now d'
     = {| cache.TotalEntries := 0; cache.ValidEntries := 0;
          cache.ExpiredEntries := 0; cache.TotalSize := 0 |}.
Proof.
  unfold cache.Clear; simpl.
  assert (Hlook : forall path entry,
             map_fold (fun name entry (dir : cache.Dir) =>
                         if os.IsDir entry then dir else delete name dir) d d
             !! path = Some entry <->
             d !! path = Some entry /\ os.IsDir entry = true).
  { intros path entry. rewrite Clear_lookup.
    destruct (d !! path) as [e|] eqn:Hd.
    - destruct (os.IsDir e) eqn:Hdir.
      + split.
        * intros H. inversion H; subst. auto.
        * intros [H _]. exact H.
      + split; [discriminate|]. intros [H Hdir']. inversion H; subst.
        congruence.
    - split; [discriminate|]. intros [H _]. discriminate. }
  split; [exact Hlook|]. split.
  - intros key.
    destruct (Get_cases c key now
                (map_fold (fun name entry (dir : cache.Dir) =>
                             if os.IsDir entry then dir else delete name dir)
                          d d))
      as [(cause & Hname & Hget)
         |(Hname & [(Hfile & Hget)
                   |[(cause & Hfile & Hget)
                    |[(data & cause & Hfile & Hparse & Hget)
                     |(data & entry & Hfile & Hparse & Hget)]]])];
      rewrite Hget; try reflexivity.
    apply Hlook in Hfile as [_ Hdir]. discriminate.
  - apply GetStats_only_dirs. intros path entry Hin.
    apply Hlook in Hin as [_ Hdir]. exact Hdir.
Qed.

(** Property X12: the counters of [GetStats] are consistent.  Valid and
    expired entries are counted from zero up and together never exceed
    the total; when every entry of the directory is a file that parses,
    they add up to the total, which is the number of entries. *)
Theorem GetStats_counts_add_up
        (c : cache.Cache) (now : Time) (d : cache.Dir) :
  let stats := cache.GetStats c now d in
  0 <= cache.ValidEntries stats
  /\ 0 <= cache.ExpiredEntries stats
  /\ cache.ValidEntries stats + cache.ExpiredEntries stats
     <= cache.TotalEntries stats
  /\ ((forall path entry,
         d !! path = Some entry ->
         exists data cacheEntry,
           entry = os.Regular data /\ json.Unmarshal data = Ok cacheEntry) ->
      cache.ValidEntries stats + cache.ExpiredEntries stats
      = cache.TotalEntries stats
      /\ cache.TotalEntries stats = Z.of_nat (size d)).
Proof.
  induction d as [|i x m Hfresh IH] using map_ind.
  - rewrite map_size_empty. unfold cache.GetStats.
    rewrite map_fold_empty. simpl. repeat split; lia.
  - cbv zeta in *. rewrite GetStats_insert_fresh by exact Hfresh.
    destruct IH as (Hv & He & Hle & Heq).
    set (stats := cache.GetStats c now m) in *.
    assert (Hstep :
      0 <= cache.ValidEntries (cache.statsEntry now i x stats)
      /\ 0 <= cache.ExpiredEntries (cache.statsEntry now i x stats)
      /\ cache.ValidEntries (cache.statsEntry now i x stats)
         + cache.ExpiredEntries (cache.statsEntry now i x stats)
         <= cache.TotalEntries (cache.statsEntry now i x stats)).
    { unfold cache.statsEntry. destruct x as [data|cause|cause]; simpl;
        [|lia|lia].
      destruct (json.Unmarshal data) as [e|?]; simpl; [|lia].
      destruct (After now (cache.ExpiresAt e)); simpl; lia. }
    destruct Hstep as (Hv' & He' & Hle').
    split; [exact Hv'|]. split; [exact He'|]. split; [exact Hle'|].
    intros Hall.
    destruct (Hall i x (lookup_insert_eq _ _ _)) as (data & e & -> & Hparse).
    destruct Heq as [Heq Hsize].
    { intros path entry Hin. apply (Hall path).
      rewrite lookup_insert_ne; [exact Hin|]. congruence. }
    rewrite map_size_insert_None by exact Hfresh.
    unfold cache.statsEntry; simpl. rewrite Hparse.
    destruct (After now (cache.ExpiresAt e)); simpl; lia.
Qed.

(** Property X13: the statistics of one directory at two instants.  The
    total number of entries and the total size do not depend on the
    instant; entries only move from valid to expired as time goes on. *)
Theorem GetStats_over_time
        (c : cache.Cache) (now later : Time) (d : cache.Dir) :
  now <= later ->
  cache.TotalEntries (cache.GetStats c later d)
  = cache.TotalEntries (cache.GetStats c now d)
  /\ cache.TotalSize (cache.GetStats c later d)
     = cache.TotalSize (cache.GetStats c now d)
  /\ cache.ValidEntries (cache.GetStats c later d)
     + cache.ExpiredEntries (cache.GetStats c later d)
     = cache.ValidEntries (cache.GetStats c now d)
       + cache.ExpiredEntries (cache.GetStats c now d)
  /\ cache.ValidEntries (cache.GetStats c later d)
     <= cache.ValidEntries (cache.GetStats c now d).
Proof.
  intros Hlater.
  induction d as [|i x m Hfresh IH] using map_ind.
  - unfold cache.GetStats. rewrite !map_fold_empty. simpl. lia.
  - rewrite !GetStats_insert_fresh by exact Hfresh.
    destruct IH as (Ht & Hs & Hsum & Hv).
    set (s1 := cache.GetStats c later m) in *.
    set (s0 := cache.GetStats c now m) in *.
    unfold cache.statsEntry. destruct x as [data|cause|cause]; simpl;
      [|lia|lia].
    destruct (json.Unmarshal data) as [e|?]; simpl; [|lia].
    unfold After.
    destruct (Z.ltb_spec (cache.ExpiresAt e) later),
             (Z.ltb_spec (cache.ExpiresAt e) now); simpl; lia.
Qed.
End CacheMore.

(** Property X6 at the keys courses/123 and courses:123: the two
    identifiers stored under the first are served, re-indented, under the
    second. *)
Lemma keys_with_one_path_courses_123 :
  let stored := {| cache.Data := indentedIds; cache.CachedAt := 0;
                   cache.ExpiresAt := 10 * time.Second |} in
  let d' : cache.Dir := <["courses_123.json" := os.Regular (Ok stored)]> ∅ in
  exists raw entry,
    json.Marshal compactIds = Ok raw
    /\ cache.Data entry = json.Indent 1 raw
    /\ cache.CachedAt entry = 0
    /\ cache.Get exampleCache "courses:123" (5 * time.Second) d'
       = (d', (Some entry, None)).
Proof.
  intros stored d'.
  assert (Hpath : cache.getPath exampleCache "courses:123"
                  = cache.getPath exampleCache "courses/123")
    by (vm_compute; reflexivity).
  assert (Hset : cache.Set_ exampleCache "courses/123" compactIds
                            (10 * time.Second) 0 ∅
                 = (d', None))
    by (vm_compute; reflexivity).
  apply (keys_with_one_path_share_an_entry
           exampleCache "courses/123" "courses:123" compactIds
           (10 * time.Second) 0 (5 * time.Second) ∅ _ Hpath Hset).
  vm_compute. discriminate.
Defined.

(** Property X9 at an entry that expired at second 10: the lookup at
    second 11 removes it, and the lookup at second 12 misses again. *)
Lemma miss_is_stable_after_expiry :
  cache.Get exampleCache "courses" (12 * time.Second)
            (fst (cache.Get exampleCache "courses" (11 * time.Second)
                            (<["courses.json" :=
                                 os.Regular (Ok exampleEntry)]> ∅)))
  = (fst (cache.Get exampleCache "courses" (11 * time.Second)
                    (<["courses.json" := os.Regular (Ok exampleEntry)]> ∅)),
     (None, None)).
Proof.
  apply miss_is_stable.
  - vm_compute. discriminate.
  - vm_compute. reflexivity.
Defined.

(** Property X13 at the same entry, seen at seconds 5 and 11. *)
Lemma GetStats_over_time_seconds_5_and_11 :
  let d : cache.Dir := <["courses.json" := os.Regular (Ok exampleEntry)]> ∅ in
  cache.TotalEntries (cache.GetStats exampleCache (11 * time.Second) d)
  = cache.TotalEntries (cache.GetStats exampleCache (5 * time.Second) d)
  /\ cache.TotalSize (cache.GetStats exampleCache (11 * time.Second) d)
     = cache.TotalSize (cache.GetStats exampleCache (5 * time.Second) d)
  /\ cache.ValidEntries (cache.GetStats exampleCache (11 * time.Second) d)
     + cache.ExpiredEntries (cache.GetStats exampleCache (11 * time.Second) d)
     = cache.ValidEntries (cache.GetStats exampleCache (5 * time.Second) d)
       + cache.ExpiredEntries (cache.GetStats exampleCache (5 * time.Second) d)
  /\ cache.ValidEntries (cache.GetStats exampleCache (11 * time.Second) d)
     <= cache.ValidEntries (cache.GetStats exampleCache (5 * time.Second) d).
Proof.
  intros d. apply GetStats_over_time. vm_compute. discriminate.
Defined.

(** ** The token store under [SaveToken], [RefreshToken], [Status] and
    [Login] *)
Section AuthMore.
Import time.
Context {codec : json.Codec oauth2.Token (fun token => token)}
        {env : os.Env}.

(** A failed [SaveToken] leaves the store as it was. *)
Lemma SaveToken_failure a token (st st' : auth.Store) err :
  auth.SaveToken a token st = (st', Some err) ->
  st' = st.
Proof.
  unfold auth.SaveToken.
  destruct (os.MkdirAll _); [intros H; inversion H; reflexivity|].
  destruct (json.MarshalIndent token);
    [|intros H; inversion H; reflexivity].
  destruct st as [[data|cause|cause]|]; intros H; inversion H; reflexivity.
Qed.

(** Property X14: [SaveToken] and [loadToken] are a round trip.  After a
    successful save the token loads back as it was saved.  A save succeeds
    only if the token directory could be made, the token marshalled and
    the file was not an entry that cannot be written.  When the directory
    cannot be made, or the token does not marshal, nothing is written and
    the error comes back behind the prefix of that step. *)
Theorem SaveToken_round_trip
        (a : auth.Authenticator) (token : oauth2.Token) (st : auth.Store) :
  (forall st',
      auth.SaveToken a token st = (st', None) ->
      auth.loadToken a st' = Ok token)
  /\ (snd (auth.SaveToken a token st) = None ->
      os.MkdirAll (filepath.Dir (auth.tokenPath a)) = None
      /\ (exists data, json.MarshalIndent token = Ok data)
      /\ (forall cause,
            st <> Some (os.Unreadable cause)
            /\ st <> Some (os.SubDir cause)))
  /\ (forall cause,
         os.MkdirAll (filepath.Dir (auth.tokenPath a)) = Some cause ->
         auth.SaveToken a token st
         = (st, Some (wrapError "failed to create token directory: " cause)))
  /\ (forall cause,
         os.MkdirAll (filepath.Dir (auth.tokenPath a)) = None ->
         json.MarshalIndent token = Err cause ->
         auth.SaveToken a token st
         = (st, Some (wrapError "failed to marshal token: " cause))).
Proof.
  split; [|split; [|split]].
  - intros st'. apply SaveToken_then_load.
  - unfold auth.SaveToken.
    destruct (os.MkdirAll _); [discriminate|].
    destruct (json.MarshalIndent token) as [data|err]; [|discriminate].
    destruct st as [[old|cause|cause]|]; simpl; try discriminate;
      intros _; (split; [reflexivity|]); (split; [eauto|]);
      intros cz; split; discriminate.
  - intros cause Hdir. unfold auth.SaveToken. rewrite Hdir. reflexivity.
  - intros cause Hdir Hdata. unfold auth.SaveToken.
    rewrite Hdir, Hdata. reflexivity.
Qed.

(** Property X15: the guards of [RefreshToken].  The error of
    [loadToken] is returned as it is; a token without refresh token is
    refused with the store untouched; and a store that held a token that
    loads still holds one afterwards, the old token or the token the call
    returned. *)
Theorem RefreshToken_guards
        (a : auth.Authenticator) (now : Time) (st : auth.Store) :
  (forall err,
      auth.loadToken a st = Err err ->
      auth.RefreshToken a now st = (st, Err err))
  /\ (forall token,
         auth.loadToken a st = Ok token ->
         oauth2.RefreshToken token = "" ->
         auth.RefreshToken a now st
         = (st, Err (errorString "no refresh token available")))
  /\ (forall token,
         auth.loadToken a st = Ok token ->
         exists token',
           auth.loadToken a (fst (auth.RefreshToken a now st)) = Ok token'
           /\ (token' = token
               \/ snd (auth.RefreshToken a now st) = Ok token')).
Proof.
  unfold auth.RefreshToken. split; [|split].
  - intros err Hload. rewrite Hload. reflexivity.
  - intros token Hload Hempty. rewrite Hload, Hempty. reflexivity.
  - intros token Hload. rewrite Hload.
    destruct (String.eqb (oauth2.RefreshToken token) "");
      [exists token; auto|].
    destruct (oauth2.TokenSource_Token (auth.config a) token now)
      as [fresh|err]; [|exists token; auto].
    destruct (auth.SaveToken a fresh st) as [st1 [err|]] eqn:Hsave; simpl.
    + exists token. split; [|auto].
      rewrite (SaveToken_failure _ _ _ _ _ Hsave). exact Hload.
    + exists fresh. split; [|auto].
      apply (SaveToken_then_load a _ st). exact Hsave.
Qed.

(** Property X16: [RefreshToken] on a token that is still valid asks the
    provider nothing.  The token source hands the stored token back, and
    all the call does is to save that token again: it returns the token
    when the save succeeds, and then the store holds it, and the error of
    the save otherwise, whatever the token endpoint would have answered. *)
Theorem RefreshToken_reuses_a_valid_token
        (a : auth.Authenticator) (now : Time) (st : auth.Store)
        (token : oauth2.Token) :
  auth.loadToken a st = Ok token ->
  oauth2.RefreshToken token <> "" ->
  oauth2.Valid token now = true ->
  auth.RefreshToken a now st
  = (fst (auth.SaveToken a token st),
     match snd (auth.SaveToken a token st) with
     | Some err => Err err
     | None => Ok token
     end)
  /\ (forall st' newToken,
         auth.RefreshToken a now st = (st', Ok newToken) ->
         newToken = token /\ auth.loadToken a st' = Ok token).
Proof.
  intros Hload Hrefresh Hvalid.
  assert (Hrun : auth.RefreshToken a now st
                 = (fst (auth.SaveToken a token st),
                    match snd (auth.SaveToken a token st) with
                    | Some err => Err err
                    | None => Ok token
                    end)).
  { unfold auth.RefreshToken. rewrite Hload.
    apply String.eqb_neq in Hrefresh. rewrite Hrefresh.
    unfold oauth2.TokenSource_Token. rewrite Hvalid.
    destruct (auth.SaveToken a token st) as [st1 [err|]]; reflexivity. }
  split; [exact Hrun|].
  intros st' newToken Hok. rewrite Hrun in Hok.
  destruct (auth.SaveToken a token st) as [st1 [err|]] eqn:Hsave;
    simpl in Hok; inversion Hok; subst.
  split; [reflexivity|].
  apply (SaveToken_then_load a _ st). exact Hsave.
Qed.

(** Property X17: [Status] never reports an error.  It asks for a refresh
    exactly when a token loads and is not valid; when no token loads it
    answers with the empty [TokenInfo], refresh not needed, although
    [IsAuthenticated] is false; and a token that loads and does not
    authenticate always needs a refresh. *)
Theorem Status_never_fails
        (a : auth.Authenticator) (now : Time) (st : auth.Store) :
  snd (auth.Status a now st) = None
  /\ (auth.NeedsRefresh (fst (auth.Status a now st)) = true <->
      exists token,
        auth.loadToken a st = Ok token /\ oauth2.Valid token now = false)
  /\ (forall err,
         auth.loadToken a st = Err err ->
         fst (auth.Status a now st)
         = {| auth.Email := ""; auth.AccessToken := ""; auth.Expiry := 0;
              auth.NeedsRefresh := false |}
         /\ auth.IsAuthenticated a now st = false)
  /\ (forall token,
         auth.loadToken a st = Ok token ->
         auth.IsAuthenticated a now st = false ->
         auth.NeedsRefresh (fst (auth.Status a now st)) = true).
Proof.
  unfold auth.Status, auth.IsAuthenticated.
  destruct (auth.loadToken a st) as [token|err]; simpl.
  - split; [reflexivity|]. split; [|split].
    + rewrite negb_true_iff. split.
      * intros H. exists token. auto.
      * intros (t & Ht & Hv). inversion Ht; subst. exact Hv.
    + discriminate.
    + intros t Ht Hauth. inversion Ht; subst t.
      apply orb_false_iff in Hauth as [Hv _]. rewrite Hv. reflexivity.
  - split; [reflexivity|]. split; [|split].
    + split; [discriminate|]. intros (t & Ht & _). discriminate.
    + intros e _. split; reflexivity.
    + discriminate.
Qed.

(** Property X18: a callback whose state is not the one [Login] issued is
    refused.  When such a request is what [Login] receives, the handler
    answers 400, [Login] returns the state-mismatch error (or, had the
    browser not opened, that error), no code is exchanged and the store
    is untouched. *)
Theorem Login_rejects_foreign_state
        (a : auth.Authenticator) (exchange : string -> Result oauth2.Token)
        (unixNano : Z) (browser : option error) (qstate qcode : string)
        (st : auth.Store) :
  qstate <> "state_" +:+ Itoa unixNano ->
  fst (auth.Login a exchange unixNano browser
                  (auth.CallbackRequest qstate qcode) st) = st
  /\ snd (auth.Login a exchange unixNano browser
                     (auth.CallbackRequest qstate qcode) st)
     = Some match browser with
            | Some err => wrapError "failed to open browser: " err
            | None => errorString "state mismatch"
            end
  /\ snd (auth.callbackHandler ("state_" +:+ Itoa unixNano) qstate qcode)
     = 400.
Proof.
  intros Hstate. apply String.eqb_neq in Hstate.
  unfold auth.Login, auth.callbackHandler. rewrite Hstate. simpl.
  destruct browser; repeat split.
Qed.

(** Property X19: the outcomes of [Login].  It succeeds only when the
    browser opened and it received a callback with the state it issued
    and a code that is not empty, which the provider exchanged for a
    token; that token is then the one the store holds.  And the store is
    touched by nothing but the save of such a token: a login that leaves
    another store than it found has received such a callback, and the
    store is the one [SaveToken] left. *)
Theorem Login_outcomes
        (a : auth.Authenticator) (exchange : string -> Result oauth2.Token)
        (unixNano : Z) (browser : option error) (arrival : auth.Arrival)
        (st : auth.Store) :
  let run := auth.Login a exchange unixNano browser arrival st in
  (snd run = None ->
   browser = None
   /\ exists qcode token,
        arrival = auth.CallbackRequest ("state_" +:+ Itoa unixNano) qcode
        /\ qcode <> ""
        /\ exchange qcode = Ok token
        /\ auth.loadToken a (fst run) = Ok token)
  /\ (fst run <> st ->
      browser = None
      /\ exists qcode token,
           arrival = auth.CallbackRequest ("state_" +:+ Itoa unixNano) qcode
           /\ qcode <> ""
           /\ exchange qcode = Ok token
           /\ fst run = fst (auth.SaveToken a token st)).
Proof.
  unfold auth.Login, auth.callbackHandler, auth.ExchangeCode.
  destruct browser as [berr|]; simpl.
  { split; [discriminate|]. intros H. contradiction H. reflexivity. }
  destruct arrival as [qstate qcode|serr|]; simpl;
    try (split; [discriminate|intros H; contradiction H; reflexivity]).
  destruct (String.eqb_spec qstate ("state_" +:+ Itoa unixNano))
    as [->|Hstate]; simpl;
    [|split; [discriminate|intros H; contradiction H; reflexivity]].
  destruct (String.eqb_spec qcode "") as [->|Hcode]; simpl;
    [split; [discriminate|intros H; contradiction H; reflexivity]|].
  destruct (exchange qcode) as [token|xerr] eqn:Hx; simpl;
    [|split; [discriminate|intros H; contradiction H; reflexivity]].
  destruct (auth.SaveToken a token st) as [st1 [serr|]] eqn:Hsave; simpl.
  - split; [discriminate|]. intros _. split; [reflexivity|].
    exists qcode, token. rewrite Hsave. repeat split; auto.
  - split.
    + intros _. split; [reflexivity|].
      exists qcode, token. repeat split; auto.
      apply (SaveToken_then_load a _ st). exact Hsave.
    + intros _. split; [reflexivity|].
      exists qcode, token. rewrite Hsave. repeat split; auto.
Qed.

(** Property X20: a provider that refuses the code is reported with the
    exchange prefix twice, once by [ExchangeCode] and once by [Login], and
    the store is untouched. *)
Theorem Login_wraps_exchange_error_twice
        (a : auth.Authenticator) (exchange : string -> Result oauth2.Token)
        (unixNano : Z) (qcode : string) (cause : error) (st : auth.Store) :
  qcode <> "" ->
  exchange qcode = Err cause ->
  auth.Login a exchange unixNano None
             (auth.CallbackRequest ("state_" +:+ Itoa unixNano) qcode) st
  = (st, Some (wrapError "failed to exchange code: "
                         (wrapError "failed to exchange code: " cause))).
Proof.
  intros Hcode Hx. apply String.eqb_neq in Hcode.
  unfold auth.Login, auth.callbackHandler, auth.ExchangeCode.
  rewrite String.eqb_refl, Hcode. simpl. rewrite Hx. reflexivity.
Qed.
End AuthMore.

(** Property X16 at a token valid until second 3000, with a refresh
    token, and a provider that would refuse every refresh. *)
Lemma RefreshToken_reuses_a_valid_token_at_second_2000 :
  let token := {| oauth2.AccessToken := "access";
                  oauth2.TokenType := "Bearer";
                  oauth2.RefreshToken := "refresh";
                  oauth2.Expiry := 3000 * time.Second |} in
  snd (auth.RefreshToken exampleAuthenticator (2000 * time.Second)
                         (Some (os.Regular (Ok token)))) = Ok token
  /\ auth.loadToken exampleAuthenticator
                    (fst (auth.RefreshToken exampleAuthenticator
                                            (2000 * time.Second)
                                            (Some (os.Regular (Ok token)))))
     = Ok token.
Proof.
  intros token.
  assert (Hvalid : oauth2.Valid token (2000 * time.Second) = true)
    by (vm_compute; reflexivity).
  assert (Hrefresh : oauth2.RefreshToken token <> "") by discriminate.
  assert (Hload : auth.loadToken exampleAuthenticator
                                 (Some (os.Regular (Ok token))) = Ok token)
    by reflexivity.
  destruct (RefreshToken_reuses_a_valid_token _ _ _ _ Hload Hrefresh Hvalid)
    as [Hrun _].
  rewrite Hrun. split; reflexivity.
Defined.

(** Property X18 at the state issued for clock reading 42 and a callback
    carrying the state of another login. *)
Lemma Login_rejects_foreign_state_41 :
  fst (auth.Login exampleAuthenticator (fun _ => Ok staleToken) 42 None
                  (auth.CallbackRequest "state_41" "code") None) = None
  /\ snd (auth.Login exampleAuthenticator (fun _ => Ok staleToken) 42 None
                     (auth.CallbackRequest "state_41" "code") None)
     = Some (errorString "state mismatch")
  /\ snd (auth.callbackHandler ("state_" +:+ Itoa 42) "state_41" "code")
     = 400.
Proof.
  apply (Login_rejects_foreign_state
           exampleAuthenticator (fun _ => Ok staleToken) 42 None
           "state_41" "code" None).
  vm_compute. discriminate.
Defined.

(** Property X20 at a provider that answers invalid_grant. *)
Lemma Login_wraps_exchange_error_twice_invalid_grant :
  auth.Login exampleAuthenticator (fun _ => Err invalidGrant) 42 None
             (auth.CallbackRequest ("state_" +:+ Itoa 42) "code") None
  = (None, Some (wrapError "failed to exchange code: "
                           (wrapError "failed to exchange code: "
                                      invalidGrant))).
Proof.
  apply (Login_wraps_exchange_error_twice
           exampleAuthenticator (fun _ => Err invalidGrant) 42 "code"
           invalidGrant None).
  - discriminate.
  - reflexivity.
Defined.

(** ** How errors are classified *)

(** Property X21: the classification of an error reads its text only.
    Wrapping an error keeps it in its class, rate limit or API error; and
    any remote error whose message contains one of the marks is put in
    the class of the mark, whatever its status code. *)
Theorem errors_classified_by_text (err : error) (prefix : string)
        (code : Z) (message : string) :
  (api.isRateLimitError err = true ->
   api.isRateLimitError (wrapError prefix err) = true)
  /\ (api.isAPIError err = true ->
      api.isAPIError (wrapError prefix err) = true)
  /\ (gostrings.Contains message "429" = true
      \/ gostrings.Contains message "rate limit" = true ->
      api.isRateLimitError (googleapiError code message) = true)
  /\ (gostrings.Contains message "403" = true
      \/ gostrings.Contains message "404" = true
      \/ gostrings.Contains message "401" = true ->
      api.isAPIError (googleapiError code message) = true).
Proof.
  unfold api.isRateLimitError, api.isAPIError.
  cbn [Error]. rewrite !orb_true_iff.
  split; [|split; [|split]].
  - intros [H|H]; [left|right]; apply Contains_append_r; exact H.
  - intros [[H|H]|H]; [left; left|left; right|right];
      apply Contains_append_r; exact H.
  - intros [H|H]; [left|right];
      repeat apply Contains_append_r; exact H.
  - intros [H|[H|H]]; [left; left|left; right|right];
      repeat apply Contains_append_r; exact H.
Qed.

(** ** The retry loop: bounds and outcomes *)
Section RetryMore.
Import time.
Context {T : Type}.
Variable ctx : context.Context.
Variable answer : nat -> Result T.
Variable rq : api.Request.

(** With [remaining] attempts left and a positive backoff, the loop sends
    at most [remaining] requests, sleeps at most once per request, and
    takes at most [backoff * (2 ^ remaining - 1)]. *)
Lemma retryLoop_bound remaining :
  forall backoff lastErr w,
    0 < backoff ->
    let w' := snd (api.retryLoop ctx (api.roundTrip answer rq)
                                 remaining backoff lastErr w) in
    exists sent slept,
      api.requests w' = (api.requests w ++ sent)%list
      /\ api.sleeps w' = (api.sleeps w ++ slept)%list
      /\ (length sent <= remaining)%nat
      /\ (length slept <= length sent)%nat
      /\ api.now w <= api.now w'
      /\ api.now w' <= api.now w + backoff * (2 ^ Z.of_nat remaining - 1).
Proof.
  induction remaining as [|remaining IH]; intros backoff lastErr w Hpos.
  - exists [], []. simpl. rewrite !app_nil_r. repeat split; lia.
  - assert (Hpow : 2 ^ Z.of_nat (S remaining) = 2 * 2 ^ Z.of_nat remaining).
    { rewrite Nat2Z.inj_succ, Z.pow_succ_r by lia. reflexivity. }
    assert (Hp1 : 1 <= 2 ^ Z.of_nat remaining).
    { pose proof (Z.pow_pos_nonneg 2 (Z.of_nat remaining)). lia. }
    rewrite retryLoop_step.
    destruct (context.Done ctx (api.now w)) eqn:Hlive.
    { exists [], []. simpl. rewrite !app_nil_r.
      repeat split; first [lia | rewrite ?Hpow; nia]. }
    unfold api.roundTrip at 1.
    destruct (answer (length (api.requests w))) as [resp|err].
    { exists [(api.now w, rq)], []. simpl. rewrite !app_nil_r.
      repeat split; first [lia | rewrite ?Hpow; nia]. }
    destruct (api.isRateLimitError err).
    + specialize (IH (backoff * 2) (Some err)
                     (api.Sleep backoff (api.send rq w)) ltac:(lia)).
      cbv zeta in IH.
      destruct IH as (sent & slept & Hsent & Hslept & Hn & Hm & Hlo & Hhi).
      simpl in Hsent, Hslept, Hlo, Hhi.
      rewrite Z.max_l in Hlo, Hhi by lia.
      exists ((api.now w, rq) :: sent), ((api.now w, backoff) :: slept).
      cbv zeta. rewrite Hsent, Hslept, <- !app_assoc. simpl.
      repeat split; first [lia | rewrite Hpow; nia].
    + destruct (api.isAPIError err).
      { exists [(api.now w, rq)], []. simpl. rewrite !app_nil_r.
        repeat split; first [lia | rewrite ?Hpow; nia]. }
      specialize (IH backoff (Some err) (api.send rq w) Hpos).
      cbv zeta in IH.
      destruct IH as (sent & slept & Hsent & Hslept & Hn & Hm & Hlo & Hhi).
      simpl in Hsent, Hslept, Hlo, Hhi.
      exists ((api.now w, rq) :: sent), slept.
      cbv zeta. rewrite Hsent, Hslept, <- !app_assoc. simpl.
      repeat split; first [lia | rewrite Hpow; nia].
Qed.

(** A success of the loop is the answer to the last request sent. *)
Lemma retryLoop_ok_is_last_answer remaining :
  forall backoff lastErr w resp w',
    api.retryLoop ctx (api.roundTrip answer rq) remaining backoff lastErr w
    = (Ok resp, w') ->
    exists before,
      api.requests w' = (before ++ [(api.now w', rq)])%list
      /\ answer (length before) = Ok resp.
Proof.
  induction remaining as [|remaining IH];
    intros backoff lastErr w resp w' Hrun.
  - simpl in Hrun. discriminate.
  - rewrite retryLoop_step in Hrun.
    destruct (context.Done ctx (api.now w)); [discriminate|].
    unfold api.roundTrip at 1 in Hrun.
    destruct (answer (length (api.requests w))) as [resp0|err] eqn:Hans.
    + inversion Hrun; subst. exists (api.requests w). auto.
    + destruct (api.isRateLimitError err); [exact (IH _ _ _ _ _ Hrun)|].
      destruct (api.isAPIError err); [discriminate|].
      exact (IH _ _ _ _ _ Hrun).
Qed.

(** The errors the loop can return. *)
Lemma retryLoop_err_cases remaining :
  forall backoff lastErr w e w',
    api.retryLoop ctx (api.roundTrip answer rq) remaining backoff lastErr w
    = (Err e, w') ->
    e = context.Err_ ctx
    \/ (exists n, answer n = Err e
                  /\ api.isRateLimitError e = false
                  /\ api.isAPIError e = true)
    \/ (exists n cause, answer n = Err cause
                        /\ e = wrapError "after 3 attempts: " cause)
    \/ (remaining = 0%nat
        /\ e = match lastErr with
               | Some cause => wrapError "after 3 attempts: " cause
               | None => errorString "after 3 attempts: %!w(<nil>)"
               end).
Proof.
  induction remaining as [|remaining IH];
    intros backoff lastErr w e w' Hrun.
  - simpl in Hrun. inversion Hrun; subst. right; right; right. auto.
  - rewrite retryLoop_step in Hrun.
    destruct (context.Done ctx (api.now w)).
    { inversion Hrun; subst. left. reflexivity. }
    unfold api.roundTrip at 1 in Hrun.
    destruct (answer (length (api.requests w))) as [resp0|err] eqn:Hans;
      [discriminate|].
    destruct (api.isRateLimitError err) eqn:Hrate.
    + destruct (IH _ _ _ _ _ Hrun) as [H|[H|[H|[_ H]]]]; auto.
      right; right; left. exists (length (api.requests w)), err. auto.
    + destruct (api.isAPIError err) eqn:Hapi.
      * inversion Hrun; subst. right; left.
        exists (length (api.requests w)). auto.
      * destruct (IH _ _ _ _ _ Hrun) as [H|[H|[H|[_ H]]]]; auto.
        right; right; left. exists (length (api.requests w)), err. auto.
Qed.

(** The errors [executeWithRetry] can return. *)
Lemma executeWithRetry_err_cases c w e w' :
  api.executeWithRetry c ctx (api.roundTrip answer rq) w = (Err e, w') ->
  e = context.Err_ ctx
  \/ (exists n, answer n = Err e
                /\ api.isRateLimitError e = false
                /\ api.isAPIError e = true)
  \/ (exists n cause, answer n = Err cause
                      /\ e = wrapError "after 3 attempts: " cause).
Proof.
  unfold api.executeWithRetry. intros Hrun.
  destruct (retryLoop_err_cases _ _ _ _ _ _ Hrun)
    as [H|[H|[H|[H _]]]]; auto. discriminate.
Qed.

End RetryMore.

(** Property X22: whatever the remote answers and whatever the
    configuration of the client, one call of [executeWithRetry] sends at
    most three requests, sleeps at most once per request sent, never
    moves the clock back and spends at most seven seconds (1 + 2 + 4)
    sleeping. *)
Theorem at_most_three_attempts
        {T} (c : api.Client) (ctx : context.Context)
        (answer : nat -> Result T) (rq : api.Request) (w : api.World) :
  let w' := snd (api.executeWithRetry c ctx (api.roundTrip answer rq) w) in
  exists sent slept,
    api.requests w' = (api.requests w ++ sent)%list
    /\ api.sleeps w' = (api.sleeps w ++ slept)%list
    /\ (length sent <= 3)%nat
    /\ (length slept <= length sent)%nat
    /\ api.now w <= api.now w' <= api.now w + 7 * time.Second.
Proof.
  destruct (retryLoop_bound ctx answer rq 3 time.Second None w)
    as (sent & slept & Hsent & Hslept & Hn & Hm & Hlo & Hhi).
  { unfold time.Second. lia. }
  exists sent, slept. unfold api.executeWithRetry.
  change (time.Second * (2 ^ Z.of_nat 3 - 1)) with (7 * time.Second) in Hhi.
  repeat split; assumption.
Qed.



(** Property X24: one rate-limited answer costs one second.  When the
    first answer is a rate-limit error and the second a success, the
    call sleeps for one second once, sends the request a second time and
    returns the second answer. *)
Theorem success_on_second_attempt
        {T} (c : api.Client) (ctx : context.Context)
        (answer : nat -> Result T) (rq : api.Request) (w : api.World)
        (err : error) (resp : T) :
  context.Done ctx (api.now w) = false ->
  context.Done ctx (api.now w + time.Second) = false ->
  answer (length (api.requests w)) = Err err ->
  api.isRateLimitError err = true ->
  answer (S (length (api.requests w))) = Ok resp ->
  api.executeWithRetry c ctx (api.roundTrip answer rq) w
  = (Ok resp,
     {| api.now := api.now w + time.Second;
        api.requests :=
          (api.requests w
           ++ [(api.now w, rq); (api.now w + time.Second, rq)])%list;
        api.sleeps := (api.sleeps w ++ [(api.now w, time.Second)])%list |}).
Proof.
  intros Hlive Hlive' H0 Hrate H1. unfold api.executeWithRetry.
  rewrite retryLoop_step, Hlive. unfold api.roundTrip at 1.
  rewrite H0, Hrate.
  rewrite retryLoop_step. cbn [api.Sleep api.send api.now].
  rewrite Z.max_l by (unfold time.Second; lia). rewrite Hlive'.
  unfold api.roundTrip at 1. cbn [api.Sleep api.send api.requests].
  rewrite length_app, Nat.add_1_r, H1.
  unfold api.send, api.Sleep; cbn. rewrite <- !app_assoc. reflexivity.
Qed.

(** Property X24 at a remote that is rate-limited for its first request
    only. *)
Lemma success_on_second_attempt_after_one_429 :
  api.executeWithRetry
    (api.NewClient (svcRateLimitedFor 1) None) context.Background
    (api.roundTrip
       (fun n => classroom.CoursesGetDo (svcRateLimitedFor 1) n "123")
       (api.CoursesGet "123")) w0
  = (Ok (mkCourse "123" "Algebra"),
     {| api.now := api.now w0 + time.Second;
        api.requests :=
          (api.requests w0
           ++ [(api.now w0, api.CoursesGet "123");
               (api.now w0 + time.Second, api.CoursesGet "123")])%list;
        api.sleeps := (api.sleeps w0 ++ [(api.now w0, time.Second)])%list |}).
Proof.
  apply (success_on_second_attempt
           (api.NewClient (svcRateLimitedFor 1) None) context.Background
           (fun n => classroom.CoursesGetDo (svcRateLimitedFor 1) n "123")
           (api.CoursesGet "123") w0 e429 (mkCourse "123" "Algebra"));
    vm_compute; reflexivity.
Defined.

(** Property X25: the rate-limit test is made before the API-error test.
    An error that the client classifies as a rate limit is slept on for
    one second and retried even when it is also an API error, such as a
    404 whose message contains 429. *)
Theorem rate_limit_check_comes_first
        {T} (c : api.Client) (ctx : context.Context)
        (answer : nat -> Result T) (rq : api.Request) (w : api.World)
        (err : error) :
  context.Done ctx (api.now w) = false ->
  answer (length (api.requests w)) = Err err ->
  api.isRateLimitError err = true ->
  exists rest,
    api.sleeps (snd (api.executeWithRetry c ctx (api.roundTrip answer rq) w))
    = (api.sleeps w ++ (api.now w, time.Second) :: rest)%list
    /\ time.Second
       <= api.now (snd (api.executeWithRetry
                          c ctx (api.roundTrip answer rq) w))
          - api.now w.
Proof.
  intros Hlive H0 Hrate.
  set (w1 := api.Sleep time.Second (api.send rq w)).
  assert (Hrun : api.executeWithRetry c ctx (api.roundTrip answer rq) w
                 = api.retryLoop ctx (api.roundTrip answer rq) 2
                                 (time.Second * 2) (Some err) w1).
  { unfold api.executeWithRetry.
    rewrite retryLoop_step, Hlive. unfold api.roundTrip at 1.
    rewrite H0, Hrate. reflexivity. }
  rewrite Hrun.
  assert (Hw1 : api.now w1 = api.now w + time.Second
                /\ api.sleeps w1
                   = (api.sleeps w ++ [(api.now w, time.Second)])%list)
    by (split; reflexivity).
  destruct Hw1 as [Hnow1 Hsleeps1].
  destruct (retryLoop_trace ctx answer rq 2 (time.Second * 2) (Some err) w1)
    as (Hclock & _ & (slept & Hslept & _)).
  { unfold time.Second. lia. }
  exists slept. split.
  - rewrite Hslept, Hsleeps1, <- app_assoc. reflexivity.
  - rewrite Hnow1 in Hclock. lia.
Qed.

(** Property X25 at a course that is not found and whose identifier
    contains 429: the answer is an API error, and it is slept on. *)
Lemma not_found_mentioning_429_is_slept_on :
  api.isAPIError e404about429 = true
  /\ exists rest,
       api.sleeps
         (snd (api.executeWithRetry
                 (api.NewClient (svcAlways e404about429) None)
                 context.Background
                 (api.roundTrip
                    (fun _ : nat => @Err classroom.Course e404about429)
                    (api.CoursesGet "429")) w0))
       = (api.sleeps w0 ++ (api.now w0, time.Second) :: rest)%list
       /\ time.Second
          <= api.now
               (snd (api.executeWithRetry
                       (api.NewClient (svcAlways e404about429) None)
                       context.Background
                       (api.roundTrip
                          (fun _ : nat => @Err classroom.Course e404about429)
                          (api.CoursesGet "429")) w0))
             - api.now w0.
Proof.
  split; [vm_compute; reflexivity|].
  apply (rate_limit_check_comes_first
           (api.NewClient (svcAlways e404about429) None) context.Background
           (fun _ : nat => @Err classroom.Course e404about429)
           (api.CoursesGet "429") w0 e404about429);
    vm_compute; reflexivity.
Defined.

(** Property X26: every outcome of [executeWithRetry] comes from the
    remote or from the context.  A success is the answer to the last
    request sent; an error is the error of the context (cancellation, or
    deadline for a context ended by its deadline), or an answer of the
    remote that is an API error and no rate limit, returned as it is, or
    an answer of the remote wrapped as the last of three attempts. *)
Theorem every_outcome_comes_from_the_remote
        {T} (c : api.Client) (ctx : context.Context)
        (answer : nat -> Result T) (rq : api.Request) (w : api.World) :
  let run := api.executeWithRetry c ctx (api.roundTrip answer rq) w in
  (forall resp,
      fst run = Ok resp ->
      exists before,
        api.requests (snd run)
        = (before ++ [(api.now (snd run), rq)])%list
        /\ answer (length before) = Ok resp)
  /\ (forall e,
         fst run = Err e ->
         e = context.Err_ ctx
         \/ (exists n, answer n = Err e
                       /\ api.isRateLimitError e = false
                       /\ api.isAPIError e = true)
         \/ (exists n cause, answer n = Err cause
                             /\ e = wrapError "after 3 attempts: " cause)).
Proof.
  intros run. unfold run.
  destruct (api.executeWithRetry c ctx (api.roundTrip answer rq) w)
    as [[resp0|e0] w'] eqn:Hrun; simpl; split; try discriminate.
  - intros resp Heq. inversion Heq; subst.
    apply (retryLoop_ok_is_last_answer ctx answer rq _ _ _ _ _ _ Hrun).
  - intros e Heq. inversion Heq; subst.
    apply (executeWithRetry_err_cases ctx answer rq c w _ _ Hrun).
Qed.

(** Property X27: the outcomes of [GetCourse].  A course it returns is
    the conversion of the remote's answer to the last request sent, a
    request for that very course; an error it returns is the error of the
    retry loop (the error of the context, an API error of the remote, or
    an answer of the remote after three attempts) behind the prefix naming
    the course. *)
Theorem GetCourse_outcomes
        (c : api.Client) (ctx : context.Context) (courseID : string)
        (w : api.World) :
  let run := api.GetCourse c ctx courseID w in
  (forall course,
      fst run = Ok course ->
      exists before remote,
        api.requests (snd run)
        = (before ++ [(api.now (snd run), api.CoursesGet courseID)])%list
        /\ classroom.CoursesGetDo (api.service c) (length before) courseID
           = Ok remote
        /\ course = api.convertCourse remote)
  /\ (forall e,
         fst run = Err e ->
         exists cause,
           e = wrapError ("failed to get course " +:+ courseID +:+ ": ")
                         cause
           /\ (cause = context.Err_ ctx
               \/ (exists n,
                      classroom.CoursesGetDo (api.service c) n courseID
                      = Err cause
                      /\ api.isRateLimitError cause = false
                      /\ api.isAPIError cause = true)
               \/ (exists n last,
                      classroom.CoursesGetDo (api.service c) n courseID
                      = Err last
                      /\ cause = wrapError "after 3 attempts: " last))).
Proof.
  intros run. unfold run, api.GetCourse, api.CoursesGet_Do.
  destruct (api.executeWithRetry c ctx _ w) as [[resp0|e0] w'] eqn:Hrun;
    simpl; split; try discriminate.
  - intros course Heq. inversion Heq; subst.
    destruct (retryLoop_ok_is_last_answer ctx _ _ _ _ _ _ _ _ Hrun)
      as (before & Hreq & Hans).
    exists before, resp0. auto.
  - intros e Heq. inversion Heq; subst. exists e0. split; [reflexivity|].
    apply (executeWithRetry_err_cases ctx _ _ c w _ _ Hrun).
Qed.

(** ** Pagination: failures, cancellation and remotes that never finish *)




Lemma listCoursesLoop_endless c ctx :
  (forall n tok,
      exists page,
        classroom.CoursesListDo (api.service c) n tok = Ok page
        /\ classroom.NextPageToken page <> "") ->
  forall fuel courses pageToken w,
    context.Done ctx (api.now w) = false ->
    fst (api.listCoursesLoop fuel c ctx courses pageToken w) = None
    /\ length (api.requests
                 (snd (api.listCoursesLoop fuel c ctx courses pageToken w)))
       = (length (api.requests w) + fuel)%nat
    /\ api.sleeps (snd (api.listCoursesLoop fuel c ctx courses pageToken w))
       = api.sleeps w.
Proof.
  intros Hendless.
  induction fuel as [|fuel IH]; intros courses pageToken w Hlive.
  - simpl. repeat split. lia.
  - rewrite listCoursesLoop_step. unfold api.CoursesList_Do.
    destruct (Hendless (length (api.requests w)) (api.sentToken pageToken))
      as (page & Hpage & Htok).
    rewrite (executeWithRetry_first_success ctx _ _ c w page Hlive Hpage).
    destruct (String.eqb_spec (classroom.NextPageToken page) "")
      as [Heq|_]; [contradiction|].
    destruct (IH (courses ++ map api.convertCourse (classroom.Courses page))%list
                 (classroom.NextPageToken page)
                 (api.send (api.CoursesList (api.sentToken pageToken)) w)
                 Hlive)
      as (Hnone & Hlen & Hsl).
    split; [exact Hnone|]. split; [|exact Hsl].
    rewrite Hlen. simpl. rewrite length_app. simpl. lia.
Qed.

(** Property X29: the loop of [ListCourses] has no bound of its own.
    Against a remote whose every page carries a continuation token, and
    with a context that is live at the start, the loop has not returned
    after any number of pages: for every bound it has sent exactly that
    many requests, without sleeping, and is still running. *)
Theorem endless_tokens_never_return
        (c : api.Client) (ctx : context.Context) (w : api.World)
        (fuel : nat) :
  context.Done ctx (api.now w) = false ->
  (forall n tok,
      exists page,
        classroom.CoursesListDo (api.service c) n tok = Ok page
        /\ classroom.NextPageToken page <> "") ->
  fst (api.ListCourses fuel c ctx w) = None
  /\ length (api.requests (snd (api.ListCourses fuel c ctx w)))
     = (length (api.requests w) + fuel)%nat
  /\ api.sleeps (snd (api.ListCourses fuel c ctx w)) = api.sleeps w.
Proof.
  intros Hlive Hendless. unfold api.ListCourses.
  apply listCoursesLoop_endless; assumption.
Qed.

(** Property X29 at a remote that always answers with one course and the
    token more, after a hundred pages. *)
Lemma endless_remote_after_100_pages :
  fst (api.ListCourses 100 (api.NewClient svcEndless None)
                       context.Background w0) = None
  /\ length (api.requests
               (snd (api.ListCourses 100 (api.NewClient svcEndless None)
                                     context.Background w0)))
     = (length (api.requests w0) + 100)%nat
  /\ api.sleeps (snd (api.ListCourses 100 (api.NewClient svcEndless None)
                                      context.Background w0))
     = api.sleeps w0.
Proof.
  apply (endless_tokens_never_return
           (api.NewClient svcEndless None) context.Background w0 100).
  - reflexivity.
  - intros n tok. eexists. split; [reflexivity|]. discriminate.
Defined.

Lemma listCoursesLoop_trace c ctx fuel :
  forall courses pageToken w,
  exists sent,
    api.requests (snd (api.listCoursesLoop fuel c ctx courses pageToken w))
    = (api.requests w ++ sent)%list
    /\ Forall (fun tr => context.Done ctx (fst tr) = false) sent.
Proof.
  induction fuel as [|fuel IH]; intros courses pageToken w.
  - exists []. simpl. rewrite app_nil_r. split; [reflexivity|constructor].
  - rewrite listCoursesLoop_step. unfold api.CoursesList_Do.
    destruct (executeWithRetry_trace ctx
                (fun n => classroom.CoursesListDo (api.service c) n
                                                  (api.sentToken pageToken))
                (api.CoursesList (api.sentToken pageToken)) c w)
      as (_ & (sent & Hsent & Hall) & _).
    assert (Hall' : Forall (fun tr : Z * api.Request =>
                              context.Done ctx (fst tr) = false) sent).
    { eapply Forall_impl; [exact Hall|]. intros tr [H _]. exact H. }
    destruct (api.executeWithRetry c ctx _ w) as [[resp|err] w1];
      simpl in Hsent.
    + destruct (String.eqb (classroom.NextPageToken resp) "").
      * exists sent. auto.
      * destruct (IH (courses ++ map api.convertCourse
                                       (classroom.Courses resp))%list
                     (classroom.NextPageToken resp) w1)
          as (more & Hmore & Hallm).
        exists (sent ++ more)%list. split.
        -- rewrite Hmore, Hsent, app_assoc. reflexivity.
        -- apply Forall_app. auto.
    + exists sent. auto.
Qed.

(** Property X30: [ListCourses] and the end of its context.  Called with
    a context the first poll finds done, it sends nothing and returns the
    error of the context, cancellation or deadline, wrapped; and however
    many pages it fetches, every request it sends follows a poll that
    found the context live. *)
Theorem ListCourses_respects_cancellation
        (c : api.Client) (ctx : context.Context) (w : api.World)
        (fuel : nat) :
  let run := api.ListCourses (S fuel) c ctx w in
  (context.Done ctx (api.now w) = true ->
   run = (Some (Err (wrapError "failed to list courses: "
                         (context.Err_ ctx))),
          w))
  /\ (forall t r,
         In (t, r) (api.requests (snd run)) ->
         In (t, r) (api.requests w) \/ context.Done ctx t = false).
Proof.
  intros run. split.
  - intros Hdone. unfold run, api.ListCourses.
    rewrite listCoursesLoop_step. unfold api.CoursesList_Do.
    unfold api.executeWithRetry.
    rewrite retryLoop_cancelled by exact Hdone. reflexivity.
  - intros t r Hin. unfold run, api.ListCourses in Hin.
    destruct (listCoursesLoop_trace c ctx (S fuel) [] "" w)
      as (sent & Hsent & Hall).
    rewrite Hsent in Hin.
    apply in_app_or in Hin as [Hin|Hin]; [left; exact Hin|right].
    rewrite Forall_forall in Hall. apply list_elem_of_In in Hin.
    apply (Hall _ Hin).
Qed.
